(** * PushButton: debounced push-buttons and button groups

    A shallow embedding of [PushButton.cpp] (the Arduino push-button library)
    together with the properties of its state machine and of the button group.

    The embedding follows the source method by method.  The host primitives
    [millis()], [digitalRead()] and [pinMode()] are the environment: they are
    modelled by a [World] that answers each call and keeps a record of it.
    Every call of [millis()] is a separate reading of the clock, as in the
    source, where one call of [update()] may read the clock up to three
    times. *)

From Stdlib Require Import ZArith Bool List Lia.
From stdpp Require Import base option list gmap.
Import ListNotations.

Local Open Scope Z_scope.

(** ** The environment *)

(** [millis()] returns an [unsigned long]: a 32-bit counter of milliseconds
    that wraps around. *)
Definition millis_bits : Z := 32.
Definition millis_modulus : Z := 2 ^ millis_bits.

(** Conversion of an integer to [unsigned long] (the usual arithmetic
    conversion applied to the [int] delays when they are compared with an
    elapsed time, and to a clock reading kept in a field). *)
Definition to_ulong (x : Z) : Z := x mod millis_modulus.

(** [a - b] in [unsigned long] arithmetic. *)
Definition ulong_sub (a b : Z) : Z := to_ulong (a - b).

Record World := mkWorld {
  millis_calls : nat;              (* number of calls of millis() so far *)
  digitalRead_log : list Z;        (* pins given to digitalRead(), latest first *)
  pinMode_log : list (Z * Z);      (* (pin, mode) given to pinMode(), latest first *)
  clock : nat -> Z;                (* what the k-th call of millis() reads *)
  level : nat -> Z -> bool         (* what the k-th call of digitalRead() reads on a pin *)
}.

(** Computations that talk to the environment. *)
Definition io (A : Type) : Type := World -> A * World.

Definition ret {A} (a : A) : io A := fun w => (a, w).

Definition bind {A B} (c : io A) (k : A -> io B) : io B :=
  fun w => let '(a, w') := c w in k a w'.

Declare Scope io_scope.
Delimit Scope io_scope with io.
Notation "x <- c ;; k" := (bind c (fun x => k))
  (at level 100, c at next level, right associativity) : io_scope.

Definition millis : io Z := fun w =>
  (to_ulong (clock w (millis_calls w)),
   mkWorld (S (millis_calls w)) (digitalRead_log w) (pinMode_log w) (clock w) (level w)).

Definition digitalRead (pin : Z) : io bool := fun w =>
  (level w (length (digitalRead_log w)) pin,
   mkWorld (millis_calls w) (pin :: digitalRead_log w) (pinMode_log w) (clock w) (level w)).

Definition pinMode (pin mode : Z) : io unit := fun w =>
  (tt,
   mkWorld (millis_calls w) (digitalRead_log w) ((pin, mode) :: pinMode_log w) (clock w) (level w)).

(** ** The button *)

(** The members of [class PushButton].  The class declaration is in
    [PushButton.h]; the fields are the ones the methods use.  A time stamp
    holds a reading of [millis()]; a delay holds the [int] given to its
    setter. *)
Record PushButton := mkPushButton {
  _pin : Z;
  _pinMode : Z;
  _invert : bool;
  _state : bool;
  _pState : bool;
  _now : bool;
  _prev : bool;
  _longState : bool;
  _isJustPressed : bool;
  _isJustReleased : bool;
  _time : Z;
  _timeDouble : Z;
  _debounceDelay : Z;
  _longDelay : Z;
  _doubleDelay : Z;
  _longClick : bool;
  _doubleClick : bool
}.

(** Assignments to one member. *)
Definition set_pin v b := mkPushButton v (_pinMode b) (_invert b) (_state b) (_pState b) (_now b) (_prev b) (_longState b) (_isJustPressed b) (_isJustReleased b) (_time b) (_timeDouble b) (_debounceDelay b) (_longDelay b) (_doubleDelay b) (_longClick b) (_doubleClick b).
Definition set_pinMode v b := mkPushButton (_pin b) v (_invert b) (_state b) (_pState b) (_now b) (_prev b) (_longState b) (_isJustPressed b) (_isJustReleased b) (_time b) (_timeDouble b) (_debounceDelay b) (_longDelay b) (_doubleDelay b) (_longClick b) (_doubleClick b).
Definition set_invert v b := mkPushButton (_pin b) (_pinMode b) v (_state b) (_pState b) (_now b) (_prev b) (_longState b) (_isJustPressed b) (_isJustReleased b) (_time b) (_timeDouble b) (_debounceDelay b) (_longDelay b) (_doubleDelay b) (_longClick b) (_doubleClick b).
Definition set_state v b := mkPushButton (_pin b) (_pinMode b) (_invert b) v (_pState b) (_now b) (_prev b) (_longState b) (_isJustPressed b) (_isJustReleased b) (_time b) (_timeDouble b) (_debounceDelay b) (_longDelay b) (_doubleDelay b) (_longClick b) (_doubleClick b).
Definition set_pState v b := mkPushButton (_pin b) (_pinMode b) (_invert b) (_state b) v (_now b) (_prev b) (_longState b) (_isJustPressed b) (_isJustReleased b) (_time b) (_timeDouble b) (_debounceDelay b) (_longDelay b) (_doubleDelay b) (_longClick b) (_doubleClick b).
Definition set_now v b := mkPushButton (_pin b) (_pinMode b) (_invert b) (_state b) (_pState b) v (_prev b) (_longState b) (_isJustPressed b) (_isJustReleased b) (_time b) (_timeDouble b) (_debounceDelay b) (_longDelay b) (_doubleDelay b) (_longClick b) (_doubleClick b).
Definition set_prev v b := mkPushButton (_pin b) (_pinMode b) (_invert b) (_state b) (_pState b) (_now b) v (_longState b) (_isJustPressed b) (_isJustReleased b) (_time b) (_timeDouble b) (_debounceDelay b) (_longDelay b) (_doubleDelay b) (_longClick b) (_doubleClick b).
Definition set_longState v b := mkPushButton (_pin b) (_pinMode b) (_invert b) (_state b) (_pState b) (_now b) (_prev b) v (_isJustPressed b) (_isJustReleased b) (_time b) (_timeDouble b) (_debounceDelay b) (_longDelay b) (_doubleDelay b) (_longClick b) (_doubleClick b).
Definition set_isJustPressed v b := mkPushButton (_pin b) (_pinMode b) (_invert b) (_state b) (_pState b) (_now b) (_prev b) (_longState b) v (_isJustReleased b) (_time b) (_timeDouble b) (_debounceDelay b) (_longDelay b) (_doubleDelay b) (_longClick b) (_doubleClick b).
Definition set_isJustReleased v b := mkPushButton (_pin b) (_pinMode b) (_invert b) (_state b) (_pState b) (_now b) (_prev b) (_longState b) (_isJustPressed b) v (_time b) (_timeDouble b) (_debounceDelay b) (_longDelay b) (_doubleDelay b) (_longClick b) (_doubleClick b).
Definition set_time v b := mkPushButton (_pin b) (_pinMode b) (_invert b) (_state b) (_pState b) (_now b) (_prev b) (_longState b) (_isJustPressed b) (_isJustReleased b) v (_timeDouble b) (_debounceDelay b) (_longDelay b) (_doubleDelay b) (_longClick b) (_doubleClick b).
Definition set_timeDouble v b := mkPushButton (_pin b) (_pinMode b) (_invert b) (_state b) (_pState b) (_now b) (_prev b) (_longState b) (_isJustPressed b) (_isJustReleased b) (_time b) v (_debounceDelay b) (_longDelay b) (_doubleDelay b) (_longClick b) (_doubleClick b).
Definition set_debounceDelay v b := mkPushButton (_pin b) (_pinMode b) (_invert b) (_state b) (_pState b) (_now b) (_prev b) (_longState b) (_isJustPressed b) (_isJustReleased b) (_time b) (_timeDouble b) v (_longDelay b) (_doubleDelay b) (_longClick b) (_doubleClick b).
Definition set_longDelay v b := mkPushButton (_pin b) (_pinMode b) (_invert b) (_state b) (_pState b) (_now b) (_prev b) (_longState b) (_isJustPressed b) (_isJustReleased b) (_time b) (_timeDouble b) (_debounceDelay b) v (_doubleDelay b) (_longClick b) (_doubleClick b).
Definition set_doubleDelay v b := mkPushButton (_pin b) (_pinMode b) (_invert b) (_state b) (_pState b) (_now b) (_prev b) (_longState b) (_isJustPressed b) (_isJustReleased b) (_time b) (_timeDouble b) (_debounceDelay b) (_longDelay b) v (_longClick b) (_doubleClick b).
Definition set_longClick v b := mkPushButton (_pin b) (_pinMode b) (_invert b) (_state b) (_pState b) (_now b) (_prev b) (_longState b) (_isJustPressed b) (_isJustReleased b) (_time b) (_timeDouble b) (_debounceDelay b) (_longDelay b) (_doubleDelay b) v (_doubleClick b).
Definition set_doubleClick v b := mkPushButton (_pin b) (_pinMode b) (_invert b) (_state b) (_pState b) (_now b) (_prev b) (_longState b) (_isJustPressed b) (_isJustReleased b) (_time b) (_timeDouble b) (_debounceDelay b) (_longDelay b) (_doubleDelay b) (_longClick b) v.

(** [PushButton::PushButton()].  The constructor assigns the three delays
    and [_time]; every other member keeps what the storage held, which is
    what [raw] stands for. *)
Definition PushButton_new (raw : PushButton) : io PushButton :=
  (let b := set_debounceDelay 5 raw in
   let b := set_longDelay 1000 b in
   let b := set_doubleDelay 300 b in
   t <- millis ;;
   ret (set_time t b))%io.

Section Begin.

(** The pin modes: [INPUT] and [INPUT_PULLUP] come from the Arduino core,
    [PULLUP] from [PushButton.h]. *)
Variables INPUT INPUT_PULLUP PULLUP : Z.

(** [PushButton::begin(int pin, byte mode)] *)
Definition begin (pin mode : Z) (b : PushButton) : io PushButton :=
  (let b := set_pin pin b in
   let b := set_pinMode mode b in
   _ <- (if _pinMode b =? INPUT_PULLUP
         then pinMode (_pin b) INPUT_PULLUP
         else pinMode (_pin b) INPUT) ;;
   let b :=
     if (_pinMode b =? INPUT_PULLUP) || (_pinMode b =? PULLUP) then
       let b := set_invert true b in
       let b := set_state true b in
       let b := set_pState true b in
       let b := set_now true b in
       set_prev true b
     else
       let b := set_invert false b in
       let b := set_state false b in
       let b := set_pState false b in
       let b := set_now false b in
       set_prev false b in
   let b := set_longState false b in
   let b := set_longClick false b in
   let b := set_isJustPressed true b in
   let b := set_isJustReleased true b in
   ret b)%io.

End Begin.

(** [setDebounceDelay], [setLongDelay], [setDoubleDelay] *)
Definition setDebounceDelay (delay : Z) (b : PushButton) : PushButton :=
  set_debounceDelay delay b.
Definition setLongDelay (delay : Z) (b : PushButton) : PushButton :=
  set_longDelay delay b.
Definition setDoubleDelay (delay : Z) (b : PushButton) : PushButton :=
  set_doubleDelay delay b.

(** [isPressed()]: [_state ^ _invert] *)
Definition isPressed (b : PushButton) : bool := xorb (_state b) (_invert b).

(** [isReleased()]: [!_state ^ _invert], that is [(!_state) ^ _invert] *)
Definition isReleased (b : PushButton) : bool := xorb (negb (_state b)) (_invert b).

(** [isLongPressed()], [isLongReleased()] *)
Definition isLongPressed (b : PushButton) : bool :=
  xorb (_state b) (_invert b) && _longState b.
Definition isLongReleased (b : PushButton) : bool :=
  xorb (negb (_state b)) (_invert b) && _longState b.

(** [PushButton::update()] *)
Definition update (b : PushButton) : io (bool * PushButton) :=
  (let b := set_prev (_now b) b in
   v <- digitalRead (_pin b) ;;
   let b := set_now v b in
   if negb (eqb (_now b) (_prev b)) then
     t <- millis ;;
     ret (false, set_time t b)
   else
     debounced <- (if negb (eqb (_state b) (_now b))
                   then t <- millis ;;
                        ret (to_ulong (_debounceDelay b) <? ulong_sub t (_time b))
                   else ret false) ;;
     if debounced then
       let b := set_pState (_state b) b in
       let b := set_state (_now b) b in
       let b := set_longState false b in
       let b := set_isJustPressed false b in
       let b := set_isJustReleased false b in
       let b := if isPressed b then set_longClick false b else b in
       b <- (if isReleased b then
               t <- millis ;;
               let b := if ulong_sub t (_timeDouble b) <? to_ulong (_doubleDelay b)
                        then set_doubleClick true b
                        else set_doubleClick false b in
               t' <- millis ;;
               ret (set_timeDouble t' b)
             else ret b) ;;
       ret (true, b)
     else
       long <- (if negb (_longState b)
                then t <- millis ;;
                     ret (to_ulong (_longDelay b) <? ulong_sub t (_time b))
                else ret false) ;;
       if long then
         let b := set_longState true b in
         let b := if isPressed b then set_longClick true b else b in
         ret (true, b)
       else
         ret (false, b))%io.

(** [justPressed()], [justReleased()] *)
Definition justPressed (b : PushButton) : bool * PushButton :=
  if isPressed b && negb (_isJustPressed b)
  then (true, set_isJustPressed true b)
  else (false, b).

Definition justReleased (b : PushButton) : bool * PushButton :=
  if isReleased b && negb (_isJustReleased b)
  then (true, set_isJustReleased true b)
  else (false, b).

(** [justClicked()] *)
Definition justClicked (b : PushButton) : io (bool * PushButton) :=
  (t <- millis ;;
   if (ulong_sub t (_timeDouble b) <? to_ulong (_doubleDelay b))
      || (_longClick b || _doubleClick b)
   then ret (false, b)
   else ret (justReleased b))%io.

(** [justLongClicked()], [justDoubleClicked()] *)
Definition justLongClicked (b : PushButton) : bool * PushButton :=
  if negb (_longClick b) then (false, b)
  else
    let '(r, b) := justReleased b in
    if r then (true, set_longClick false b) else (false, b).

Definition justDoubleClicked (b : PushButton) : bool * PushButton :=
  if negb (_doubleClick b) then (false, b)
  else
    let '(r, b) := justReleased b in
    if r then (true, set_doubleClick false b) else (false, b).

(** ** Sequences of calls on one button *)

(** The methods a sketch calls in its loop: [update()] and the nine
    accessors. *)
Inductive method :=
| Update
| IsPressed
| IsReleased
| IsLongPressed
| IsLongReleased
| JustPressed
| JustReleased
| JustClicked
| JustLongClicked
| JustDoubleClicked.

#[global] Instance method_eq_dec : EqDecision method.
Proof. solve_decision. Defined.

Definition call (m : method) (b : PushButton) : io (bool * PushButton) :=
  match m with
  | Update => update b
  | IsPressed => ret (isPressed b, b)
  | IsReleased => ret (isReleased b, b)
  | IsLongPressed => ret (isLongPressed b, b)
  | IsLongReleased => ret (isLongReleased b, b)
  | JustPressed => ret (justPressed b)
  | JustReleased => ret (justReleased b)
  | JustClicked => justClicked b
  | JustLongClicked => ret (justLongClicked b)
  | JustDoubleClicked => ret (justDoubleClicked b)
  end.

(** The outcome of a call: what it returned, the button and the world it
    left. *)
Definition returned {A} (x : bool * PushButton * A) : bool := fst (fst x).
Definition button_after {A B} (x : A * PushButton * B) : PushButton := snd (fst x).
Definition world_after {A} (x : A * World) : World := snd x.

(** [run ms] makes the calls [ms] in order and returns what each one
    returned. *)
Fixpoint run (ms : list method) (b : PushButton) : io (list (method * bool) * PushButton) :=
  match ms with
  | [] => ret ([], b)
  | m :: ms' => fun w =>
      let x := call m b w in
      let y := run ms' (button_after x) (world_after x) in
      ((m, returned x) :: fst (fst y), button_after y, world_after y)
  end.

(** [update()] accepts a transition when it commits a new debounced level,
    that is when it changes [_state]. *)
Definition accepted (b b' : PushButton) : bool := negb (eqb (_state b) (_state b')).

(** No call of [ms] accepts a transition. *)
Fixpoint quiet (ms : list method) (b : PushButton) (w : World) : bool :=
  match ms with
  | [] => true
  | m :: ms' =>
      let x := call m b w in
      negb (accepted b (button_after x)) && quiet ms' (button_after x) (world_after x)
  end.

(** No call of [ms] sees the raw reading change: every sample taken equals
    the one before it. *)
Fixpoint steady (ms : list method) (b : PushButton) (w : World) : bool :=
  match ms with
  | [] => true
  | m :: ms' =>
      let x := call m b w in
      eqb (_now (button_after x)) (_now b) && steady ms' (button_after x) (world_after x)
  end.

(** ** The button group *)

(** A [PushButton*] is the identity of a button object; the objects live
    in a heap outside the group, which owns none of them. *)
Abbreviation heap := (gmap nat PushButton).

(** What [buttons] points to.  A block is made of one cell per
    [PushButton*] it has room for; a cell that was never written holds no
    determinate pointer. *)
Inductive table :=
| Null
| Block (cells : list (option nat))
| Freed.

Record PushButtonGroup := mkPushButtonGroup {
  buttons : table;
  buttonsSize : Z
}.

(** [PushButtonGroup::PushButtonGroup()] *)
Definition PushButtonGroup_new : PushButtonGroup := mkPushButtonGroup Null 0.

(** What [realloc] does with a request: it refuses it and returns [NULL];
    or it serves it in the block the pointer has, which stays where it is;
    or it serves it in another block, copies the contents there and
    releases the block the pointer has. *)
Inductive realloc_outcome :=
| Refused
| InPlace
| Moved.

Definition granted_of (outcome : realloc_outcome) : bool :=
  match outcome with
  | Refused => false
  | InPlace | Moved => true
  end.

Section Group.

(** The size in bytes of a [PushButton] object and of a pointer to one. *)
Variables sizeof_PushButton sizeof_pointer : Z.

(** The number of cells in a block of [sizeof(PushButton) * n] bytes. *)
Definition cells_of (n : Z) : nat := Z.to_nat (sizeof_PushButton * n / sizeof_pointer).

(** [realloc(buttons, sizeof(PushButton) * n)].  Whether the allocator
    grants the request is the environment's choice, [granted].  A granted
    request gives a block of the new size that starts with the old
    contents; a refused one returns [NULL] and leaves the old block as it
    is.  The result is [None] where the call has no defined behaviour
    (the pointer was released before). *)
Definition realloc (t : table) (n : Z) (granted : bool) : option (option (list (option nat))) :=
  match t with
  | Freed => None
  | Null => Some (if granted then Some (replicate (cells_of n) None) else None)
  | Block cells => Some (if granted then Some (resize (cells_of n) None cells) else None)
  end.

(** [PushButtonGroup::add(PushButton* button)] *)
Definition PushButtonGroup_add (button : nat) (granted : bool) (g : PushButtonGroup)
  : option PushButtonGroup :=
  let size := buttonsSize g + 1 in
  tmp ← realloc (buttons g) size granted;
  match tmp with
  | None => Some (mkPushButtonGroup (buttons g) size)
  | Some cells =>
      let i := Z.to_nat (size - 1) in
      if decide (0 <= size - 1 ∧ (i < length cells)%nat)
      then Some (mkPushButtonGroup (Block (<[i := Some button]> cells)) size)
      else None
  end.

(** The loop of [remove]: [n] rounds are left, [i] is the index at which
    [buttons] is read and [count] the index at which [tmp] is written;
    [cells] is the block [tmp] points to.  [buttons] is still the pointer
    [remove] had before it called [realloc].  When the block was resized in
    place, [buttons] and [tmp] are the same cells.  Otherwise [buttons] is
    [stale]: it is [NULL], or it points to the block that [realloc]
    released when it moved the contents, and reading [buttons[i]] has no
    defined behaviour. *)
Fixpoint remove_loop (stale : bool) (button : nat) (n i count : nat)
    (cells : list (option nat)) : option (list (option nat)) :=
  match n with
  | O => Some cells
  | S n' =>
      if stale then None
      else
        match cells !! i with
        | Some (Some p) =>
            if decide (p = button) then remove_loop stale button n' (S i) count cells
            else if decide (count < length cells)%nat
                 then remove_loop stale button n' (S i) (S count) (<[count := Some p]> cells)
                 else None
        | _ => None
        end
  end.

(** [PushButtonGroup::remove(PushButton* button)].  What [realloc] does
    with the request is the environment's choice, [outcome]. *)
Definition PushButtonGroup_remove (button : nat) (outcome : realloc_outcome)
    (g : PushButtonGroup) : option PushButtonGroup :=
  let size := buttonsSize g - 1 in
  if size =? 0 then
    match buttons g with
    | Null => Some (mkPushButtonGroup Null size)
    | Block _ => Some (mkPushButtonGroup Freed size)
    | Freed => None
    end
  else
    tmp ← realloc (buttons g) size (granted_of outcome);
    match tmp with
    | None => Some (mkPushButtonGroup (buttons g) size)
    | Some cells =>
        let top := size + 1 in
        let stale :=
          match outcome, buttons g with
          | InPlace, Block _ => false
          | _, _ => true
          end in
        cells' ← remove_loop stale button (Z.to_nat top) 0 0 cells;
        Some (mkPushButtonGroup (Block cells') size)
    end.

End Group.

(** The loop of the group's [update]: [n] rounds are left, [i] is the index
    read. *)
Fixpoint update_loop (n i : nat) (cells : list (option nat)) (state : bool)
    (h : heap) (w : World) : option (bool * heap * World) :=
  match n with
  | O => Some (state, h, w)
  | S n' =>
      match cells !! i with
      | Some (Some p) =>
          match h !! p with
          | Some b =>
              let x := update b w in
              update_loop n' (S i) cells (if returned x then true else state)
                (<[p := button_after x]> h) (world_after x)
          | None => None
          end
      | _ => None
      end
  end.

(** [PushButtonGroup::update()] *)
Definition PushButtonGroup_update (g : PushButtonGroup) (h : heap) (w : World)
  : option (bool * heap * World) :=
  match buttons g with
  | Block cells => update_loop (Z.to_nat (buttonsSize g)) 0 cells false h w
  | _ => if buttonsSize g <=? 0 then Some (false, h, w) else None
  end.

(** [PushButtonGroup::~PushButtonGroup()]: [free(buttons)].  The result is
    what [buttons] points to afterwards, and [None] where the call has no
    defined behaviour (the storage was released before). *)
Definition PushButtonGroup_delete (g : PushButtonGroup) : option table :=
  match buttons g with
  | Null => Some Null
  | Block _ => Some Freed
  | Freed => None
  end.

(** The entries of the group: the cells that [update()] goes through. *)
Definition entries (g : PushButtonGroup) : list (option nat) :=
  match buttons g with
  | Block cells => take (Z.to_nat (buttonsSize g)) cells
  | _ => []
  end.

(** * The vocabulary of the properties *)

(** ** Observations *)

(** What the next [digitalRead()] on the button's pin and the next
    [millis()] return in a world. *)
Definition sample (b : PushButton) (w : World) : bool :=
  level w (length (digitalRead_log w)) (_pin b).

Definition reading (w : World) : Z := to_ulong (clock w (millis_calls w)).

(** An edge is armed when the level is there and its guard is not set. *)
Definition press_armed (b : PushButton) : bool := isPressed b && negb (_isJustPressed b).
Definition release_armed (b : PushButton) : bool := isReleased b && negb (_isJustReleased b).

(** The pin of the button a pointer refers to. *)
Definition pin_of (h : heap) (p : nat) : Z := from_option _pin 0 (h !! p).

(** ** Kinds of methods *)

Definition is_justPressed (m : method) : bool :=
  match m with JustPressed => true | _ => false end.

Definition is_justReleased (m : method) : bool :=
  match m with JustReleased => true | _ => false end.

(** The accessors that call [justReleased()] and return true only when it
    does. *)
Definition is_click (m : method) : bool :=
  match m with JustClicked | JustLongClicked | JustDoubleClicked => true | _ => false end.

Definition no_method (m : method) : bool := false.

(** The accessors that report an event. *)
Definition is_event (m : method) : bool :=
  match m with
  | JustPressed | JustReleased | JustClicked | JustLongClicked | JustDoubleClicked => true
  | _ => false
  end.

(** ** One-shot detection *)

(** What a one-shot detector answers along a transcript.  A call of the
    detector itself ([direct]) returns true exactly when the edge is armed,
    and leaves it disarmed.  A call of a method built on the detector
    ([via]) returns true only when the edge is armed, and disarms it when it
    does.  No other call has a part in it. *)
Fixpoint one_shot (direct via : method -> bool) (armed : bool)
    (tr : list (method * bool)) : Prop :=
  match tr with
  | [] => True
  | (m, r) :: tr' =>
      if direct m then r = armed /\ one_shot direct via false tr'
      else if via m then
        (r = true -> armed = true) /\ one_shot direct via (armed && negb r) tr'
      else one_shot direct via armed tr'
  end.

(** How many calls of the methods [f] returned true along a transcript. *)
Definition fires (f : method -> bool) (tr : list (method * bool)) : nat :=
  length (List.filter (fun mr => f (fst mr) && snd mr) tr).

(** The accessors that go through [justReleased()], itself included. *)
Definition takes_release (m : method) : bool := is_justReleased m || is_click m.

(** No call of [ms] accepts a release: the debounced level may go to
    pressed, not to released. *)
Fixpoint no_release (ms : list method) (b : PushButton) (w : World) : bool :=
  match ms with
  | [] => true
  | m :: ms' =>
      let x := call m b w in
      negb (accepted b (button_after x) && isReleased (button_after x))
      && no_release ms' (button_after x) (world_after x)
  end.

(** ** Shifting the clock *)

(** Every value of the clock moved by [c]: the readings to come, and the
    two readings the button keeps. *)
Definition shift_world (c : Z) (w : World) : World :=
  mkWorld (millis_calls w) (digitalRead_log w) (pinMode_log w)
    (fun k => clock w k + c) (level w).

Definition shift_button (c : Z) (b : PushButton) : PushButton :=
  set_timeDouble (to_ulong (_timeDouble b + c)) (set_time (to_ulong (_time b + c)) b).

(** ** Polling a list of buttons *)

(** Calling [update()] on each button of [ps] in turn, keeping what each
    call returned. *)
Fixpoint poll_each (ps : list nat) (h : heap) (w : World)
  : option (list bool * heap * World) :=
  match ps with
  | [] => Some ([], h, w)
  | p :: ps' =>
      b ← h !! p;
      let x := update b w in
      y ← poll_each ps' (<[p := button_after x]> h) (world_after x);
      Some (returned x :: fst (fst y), snd (fst y), snd y)
  end.

(** ** Worlds, buttons and groups to run the model on *)

(** A world that answers the calls of [millis()] with [ts] and those of
    [digitalRead()] with [ls], one after the other, whatever the pin. *)
Definition scripted_world (ts : list Z) (ls : list bool) : World :=
  mkWorld 0 [] [] (fun k => nth k ts 0) (fun k _ => nth k ls false).

(** A button constructed in zeroed storage at time 0 and begun on pin 4
    in the plain input mode ([INPUT] = 0, [INPUT_PULLUP] = 2, [PULLUP] = 3). *)
Definition zeroed : PushButton :=
  mkPushButton 0 0 false false false false false false false false 0 0 0 0 0 false false.

Definition button_at_rest : PushButton :=
  let b := fst (PushButton_new zeroed (scripted_world [0] [])) in
  fst (begin 0 2 3 4 0 b (scripted_world [] [])).

(** A press: the reading changes at clock 10 and is accepted at clock 20. *)
Definition press_world : World := scripted_world [10; 20; 21] [true; true; true].

(** The button once that press is seen, and the world then. *)
Definition pressing : bool * PushButton * World := update button_at_rest press_world.


(** A click: pressed at clock 10, accepted at 20, released at 30, accepted
    at 40. *)
Definition click_world : World :=
  scripted_world [10; 20; 30; 40; 40; 40] [true; true; false; false].

(** A button that holds a latched double click: the release of that first
    click comes within the double-click delay of the time stamp 0 that the
    storage held. *)
Definition double_latched : PushButton :=
  button_after (run [Update; Update; Update; Update] button_at_rest click_world).

(** The group made by adding the pointers [ps] one after the other to a
    new group, every request for storage being granted, with the sizes the
    head of the source file gives: 19 bytes for a button and 2 bytes for a
    pointer. *)
Definition group_of (ps : list nat) : option PushButtonGroup :=
  foldl (fun og p => g ← og; PushButtonGroup_add 19 2 p true g)
    (Some PushButtonGroup_new) ps.

Definition two_buttons : PushButtonGroup :=
  default PushButtonGroup_new (group_of [1%nat; 2%nat]).

Definition two_buttons_heap : heap :=
  <[1%nat := button_at_rest]> (<[2%nat := set_pin 5 button_at_rest]> ∅).

(** The group made by adding the pointers [ps] one after the other to a
    new group, every request being granted, for any sizes. *)
Definition add_all (sizeof_PushButton sizeof_pointer : Z) (ps : list nat)
  : option PushButtonGroup :=
  foldl (fun og p => g ← og; PushButtonGroup_add sizeof_PushButton sizeof_pointer p true g)
    (Some PushButtonGroup_new) ps.

(** A press held for long: seen at clock 10, accepted at 20, and still
    there at clock 2000. *)
Definition long_world : World := scripted_world [10; 20; 2000; 2001] [true; true; true; true].

(** The button after the first two polls of that press, and the world
    then. *)
Definition pressed_button : PushButton :=
  button_after (run [Update; Update] button_at_rest long_world).
Definition pressed_world : World :=
  world_after (run [Update; Update] button_at_rest long_world).

(** The button once the long press is latched, and the world then. *)
Definition long_pressed_button : PushButton :=
  button_after (run [Update; Update; Update] button_at_rest long_world).
Definition long_pressed_world : World :=
  world_after (run [Update; Update; Update] button_at_rest long_world).

(** A click late enough not to be taken for a double click: released at
    clock 1030, accepted at 1040, then looked at at 1100 and 1400. *)
Definition late_click_world : World :=
  scripted_world [1010; 1020; 1030; 1040; 1040; 1040; 1100; 1400]
    [true; true; false; false].

(** The button when the release is about to be accepted, and the world
    then. *)
Definition releasing_button : PushButton :=
  button_after (run [Update; Update; Update] button_at_rest late_click_world).
Definition releasing_world : World :=
  world_after (run [Update; Update; Update] button_at_rest late_click_world).

(** Two clicks in a row: the first release is accepted at clock 1040 and
    stamped at 1041, the second press is accepted at 1110, and the second
    release, seen at 1150, is about to be accepted at 1160. *)
Definition two_clicks_world : World :=
  scripted_world [1010; 1020; 1030; 1040; 1040; 1041; 1100; 1110; 1150; 1160; 1161; 1162]
    [true; true; false; false; true; true; false; false].

(** The button when the first of these releases is about to be accepted,
    and the world then. *)
Definition first_release_button : PushButton :=
  button_after (run [Update; Update; Update] button_at_rest two_clicks_world).
Definition first_release_world : World :=
  world_after (run [Update; Update; Update] button_at_rest two_clicks_world).

(** A sketch: a button is constructed in the storage [raw] and begun on
    pin 4 in the plain input mode, then the calls [ms] are made on it.  The
    result is what the calls returned. *)
Definition sketch (raw : PushButton) (ms : list method) (w : World)
  : list (method * bool) :=
  let x := PushButton_new raw w in
  let y := begin 0 2 3 4 0 (fst x) (snd x) in
  fst (fst (run ms (fst y) (snd y))).

(** A first click right after the start: the clock reads 0 when the
    button is constructed, the press is seen at 10 and accepted at 20, the
    release is seen at 30 and accepted at 40. *)
Definition boot_world : World :=
  scripted_world [0; 10; 20; 30; 40; 40; 40] [true; true; false; false].

(** * Properties of the button *)

Ltac unfold_methods :=
  unfold call, update, justClicked, justLongClicked, justDoubleClicked,
    justPressed, justReleased, isLongPressed, isLongReleased, isPressed,
    isReleased, bind, ret, millis, digitalRead, returned, button_after,
    world_after, accepted, sample, reading in *.

Ltac split_ifs :=
  repeat match goal with
  | |- context [if ?c then _ else _] =>
      lazymatch c with
      | context [if _ then _ else _] => fail
      | _ => destruct c eqn:?; cbn in *
      end
  end.

(** When the sample differs from the last one, [update()] only records the
    two raw readings and restarts the timer. *)
Lemma update_raw_change b w :
  sample b w <> _now b ->
  fst (update b w) =
    (false, set_time (reading w) (set_now (sample b w) (set_prev (_now b) b))).
Proof.
  intros Hne. unfold_methods. destruct b; cbn in *.
  destruct (level w _ _), _now0; cbn; congruence.
Qed.

Lemma update_raw_change_fields b w :
  sample b w <> _now b ->
  returned (update b w) = false /\
  _now (button_after (update b w)) = sample b w /\
  _time (button_after (update b w)) = reading w /\
  _state (button_after (update b w)) = _state b.
Proof.
  intros Hne. unfold returned, button_after.
  rewrite (update_raw_change b w Hne). cbn. repeat split.
Qed.

(** When the sample equals the last one, the raw-reading members end up
    as they were set at the beginning of [update()]. *)
Lemma update_raw_same b w :
  sample b w = _now b ->
  _now (button_after (update b w)) = _now b /\
  _time (button_after (update b w)) = _time b.
Proof.
  intros He. unfold_methods. destruct b; cbn in *. rewrite He.
  rewrite eqb_reflx. cbn. split_ifs; auto.
Qed.

(** [update()] always leaves the sample it took in [_now]. *)
Lemma update_now b w : _now (button_after (update b w)) = sample b w.
Proof.
  unfold_methods. destruct b; cbn. split_ifs; auto.
Qed.

(** [update()] changes [_state] exactly in its second branch: the sample
    equals the last one, differs from [_state], and the time elapsed since
    [_time] exceeds the debounce delay. *)
Lemma update_accepted b w :
  accepted b (button_after (update b w)) = true <->
  sample b w = _now b /\ _state b <> sample b w /\
  to_ulong (_debounceDelay b) < ulong_sub (reading w) (_time b).
Proof.
  unfold_methods. destruct b; cbn.
  destruct (level w _ _), _now0, _state0, _longState0, _invert0; cbn; split_ifs;
    rewrite ?Z.ltb_lt, ?Z.ltb_ge in *; intuition (try congruence; try lia).
Qed.

(** The accessors change nothing but the guards and the two click
    latches. *)
Lemma call_accessor_frame m b w :
  m <> Update ->
  let b' := button_after (call m b w) in
  _state b' = _state b /\ _invert b' = _invert b /\ _now b' = _now b /\
  _time b' = _time b /\ _debounceDelay b' = _debounceDelay b.
Proof.
  intros Hm. destruct m; try congruence; unfold_methods; destruct b; cbn;
    split_ifs; auto.
Qed.

(** ** C6: pressed and released are complements *)

(** C6.  After [begin] and any sequence of calls, in any world,
    [isPressed()] is the negation of [isReleased()], so the two are never
    true together (nor false together).  The same holds of every button
    state whatsoever. *)
Theorem isPressed_isReleased_complement :
  (forall b, isPressed b = negb (isReleased b)) /\
  (forall INPUT INPUT_PULLUP PULLUP pin mode raw w0 ms,
     let x := begin INPUT INPUT_PULLUP PULLUP pin mode raw w0 in
     let b := button_after (run ms (fst x) (snd x)) in
     isPressed b = negb (isReleased b) /\
     (isPressed b && isReleased b = false)).
Proof.
  assert (H : forall b, isPressed b = negb (isReleased b)).
  { intros b. unfold isPressed, isReleased.
    destruct (_state b), (_invert b); reflexivity. }
  split; [exact H|]. intros. cbv zeta. rewrite H.
  split; [reflexivity|]. apply andb_negb_l.
Qed.

(** ** C10: what [update()] touches when the raw reading changes *)

(** C10.  When the sample [update()] takes differs from the previous raw
    reading, [update()] returns false; it stores the previous reading in
    [_prev], the sample in [_now] and the clock in [_time], and leaves every
    other member as it was: the debounced state and its predecessor, the two
    guards, the long and click latches and the double-click time stamp (and
    the pin, the modes and the delays). *)
Theorem update_raw_change_frame b w :
  sample b w <> _now b ->
  let b' := button_after (update b w) in
  returned (update b w) = false /\
  _prev b' = _now b /\ _now b' = sample b w /\ _time b' = reading w /\
  _state b' = _state b /\ _pState b' = _pState b /\
  _isJustPressed b' = _isJustPressed b /\ _isJustReleased b' = _isJustReleased b /\
  _longState b' = _longState b /\ _longClick b' = _longClick b /\
  _doubleClick b' = _doubleClick b /\ _timeDouble b' = _timeDouble b /\
  _pin b' = _pin b /\ _pinMode b' = _pinMode b /\ _invert b' = _invert b /\
  _debounceDelay b' = _debounceDelay b /\ _longDelay b' = _longDelay b /\
  _doubleDelay b' = _doubleDelay b.
Proof.
  intros Hne b'. subst b'. unfold returned, button_after.
  rewrite (update_raw_change b w Hne). cbn. repeat split.
Qed.

Lemma update_raw_change_frame_witness :
  _time (button_after (update button_at_rest (scripted_world [7] [true]))) = 7.
Proof.
  apply (update_raw_change_frame button_at_rest (scripted_world [7] [true])).
  vm_compute. discriminate.
Defined.

(** ** C5: the debounce window *)

(** Through calls that see no change of the raw reading, [_now] and
    [_time] stay as they are. *)
Lemma steady_run ms : forall b w,
  steady ms b w = true ->
  let x := run ms b w in
  _now (button_after x) = _now b /\ _time (button_after x) = _time b /\
  _debounceDelay (button_after x) = _debounceDelay b.
Proof.
  induction ms as [|m ms IH]; intros b w Hs; [cbn; auto|].
  cbn [steady] in Hs. apply andb_prop in Hs as [Hnow Hs]. apply eqb_prop in Hnow.
  specialize (IH _ _ Hs). cbv zeta in IH |- *.
  change (button_after (run (m :: ms) b w))
    with (button_after (run ms (button_after (call m b w)) (world_after (call m b w)))).
  destruct IH as (-> & -> & ->).
  destruct (decide (m = Update)) as [->|Hm].
  - cbn [call] in *. rewrite update_now in Hnow.
    destruct (update_raw_same b w Hnow) as [-> ->]. repeat split.
    clear. unfold_methods. destruct b; cbn. split_ifs; reflexivity.
  - destruct (call_accessor_frame m b w Hm) as (_ & _ & -> & -> & ->). auto.
Qed.



(** While the debounced state equals the raw reading and no sample
    differs from the one before it, nothing is committed and the two stay
    equal. *)
Lemma steady_keeps_rest ms : forall b w,
  _state b = _now b ->
  steady ms b w = true ->
  quiet ms b w = true /\
  _state (button_after (run ms b w)) = _now (button_after (run ms b w)).
Proof.
  induction ms as [|m ms IH]; intros b w Hrest Hs; [cbn; auto|].
  cbn [steady] in Hs. apply andb_prop in Hs as [Hnow Hs]. apply eqb_prop in Hnow.
  assert (Hstate : _state (button_after (call m b w)) = _state b).
  { destruct (decide (m = Update)) as [->|Hm].
    - cbn [call] in *. rewrite update_now in Hnow.
      destruct (accepted b (button_after (update b w))) eqn:Ha.
      + apply update_accepted in Ha as (_ & Hne & _). congruence.
      + unfold accepted in Ha. apply negb_false_iff, eqb_prop in Ha. congruence.
    - destruct (call_accessor_frame m b w Hm) as (-> & _). reflexivity. }
  destruct (IH (button_after (call m b w)) (world_after (call m b w))) as [Hq Hr];
    [congruence | exact Hs |].
  split; [|exact Hr].
  cbn [quiet]. rewrite Hq. unfold accepted. rewrite Hstate, eqb_reflx. reflexivity.
Qed.

(** X6.  From the state [begin] leaves, as long as every sample equals the one
    before it, whatever the clock reads and whatever accessors are called,
    no [update()] commits a new debounced level: the first commit after
    [begin] needs a change of the raw reading first. *)
Lemma commit_needs_raw_change INPUT INPUT_PULLUP PULLUP pin mode raw w0 ms :
  let x := begin INPUT INPUT_PULLUP PULLUP pin mode raw w0 in
  let y := run ms (fst x) (snd x) in
  steady ms (fst x) (snd x) = true ->
  quiet ms (fst x) (snd x) = true /\
  accepted (button_after y) (button_after (update (button_after y) (world_after y))) = false.
Proof.
  intros x y Hs.
  assert (Hrest : _state (fst x) = _now (fst x)).
  { subst x. unfold begin, bind, ret, pinMode. cbn.
    destruct (mode =? INPUT_PULLUP), (mode =? PULLUP); reflexivity. }
  destruct (steady_keeps_rest ms _ _ Hrest Hs) as [Hq Hr]. fold y in Hr.
  split; [exact Hq|].
  destruct (accepted _ _) eqn:Ha; [|reflexivity].
  apply update_accepted in Ha as (Hsame & Hne & _). congruence.
Qed.

(** ** C7: the one-shot edge detectors *)

(** One call that accepts no transition, seen from the two edges. *)
Lemma call_armed m b w :
  let x := call m b w in
  accepted b (button_after x) = false ->
  press_armed (button_after x) =
    (if is_justPressed m then false else press_armed b) /\
  (is_justPressed m = true -> returned x = press_armed b) /\
  release_armed (button_after x) =
    (if is_justReleased m then false
     else if is_click m then release_armed b && negb (returned x)
     else release_armed b) /\
  (is_justReleased m = true -> returned x = release_armed b) /\
  (is_click m = true -> returned x = true -> release_armed b = true).
Proof.
  unfold press_armed, release_armed.
  destruct m; unfold_methods; destruct b; cbn;
    destruct _state0, _invert0, _isJustPressed0, _isJustReleased0; cbn;
    try destruct _longClick0; try destruct _doubleClick0; cbn;
    try (destruct (level w _ _), _now0, _longState0; cbn);
    split_ifs; intros; repeat split; intros; congruence.
Qed.

Lemma quiet_one_shot ms : forall b w,
  quiet ms b w = true ->
  one_shot is_justPressed no_method (press_armed b) (fst (fst (run ms b w))) /\
  one_shot is_justReleased is_click (release_armed b) (fst (fst (run ms b w))).
Proof.
  induction ms as [|m ms IH]; intros b w Hq; [cbn; auto|].
  cbn [quiet] in Hq. apply andb_prop in Hq as [Ha Hq].
  apply negb_true_iff in Ha.
  destruct (IH _ _ Hq) as [IHp IHr].
  destruct (call_armed m b w Ha) as (Hp & Hpr & Hr & Hrr & Hc).
  rewrite Hp in IHp. rewrite Hr in IHr. cbn [run fst snd one_shot].
  split.
  - destruct (is_justPressed m); cbn; auto.
  - destruct (is_justReleased m); [auto|].
    destruct (is_click m); auto.
Qed.

(** C7.  Let [update()] commit a new debounced level, and let the calls
    [ms] that follow commit none.  Then [update()] returned true and turned
    the level over, and along [ms]:
    - if the new level is pressed, the first call of [justPressed()] returns
      true and every later one returns false; if it is released, every call
      of [justPressed()] returns false;
    - the same holds of [justReleased()] and the released level, a call of
      [justReleased()] made by [justClicked()], [justLongClicked()] or
      [justDoubleClicked()] counting as one: such an accessor returns true
      only while the edge is unconsumed, and consumes it when it does.
    Moreover a guard that is set stays set through any call that commits no
    new level: only a committing [update()] arms the detectors again. *)
Theorem edges_fire_once b w ms :
  let x := update b w in
  let b1 := button_after x in
  let tr := fst (fst (run ms b1 (world_after x))) in
  accepted b b1 = true ->
  quiet ms b1 (world_after x) = true ->
  returned x = true /\ isPressed b1 = negb (isPressed b) /\
  isReleased b1 = negb (isReleased b) /\
  one_shot is_justPressed no_method (isPressed b1) tr /\
  one_shot is_justReleased is_click (isReleased b1) tr /\
  (forall m b' w',
     accepted b' (button_after (call m b' w')) = false ->
     (_isJustPressed b' = true -> _isJustPressed (button_after (call m b' w')) = true) /\
     (_isJustReleased b' = true -> _isJustReleased (button_after (call m b' w')) = true)).
Proof.
  intros x b1 tr Hacc Hq.
  assert (Hcommit : returned x = true /\ _invert b1 = _invert b /\
                    _isJustPressed b1 = false /\ _isJustReleased b1 = false).
  { clear Hq tr. subst x b1. revert Hacc. unfold_methods. destruct b; cbn.
    destruct (level w _ _), _now0, _state0, _longState0, _invert0; cbn;
      split_ifs; intros; repeat split; congruence. }
  destruct Hcommit as (Hr & Hinv & Hjp & Hjr).
  destruct (quiet_one_shot ms b1 (world_after x) Hq) as [Hp Hrel].
  fold tr in Hp, Hrel. unfold press_armed in Hp. unfold release_armed in Hrel.
  rewrite Hjp, andb_true_r in Hp. rewrite Hjr, andb_true_r in Hrel.
  unfold accepted in Hacc. apply negb_true_iff, eqb_false_iff in Hacc.
  refine (conj Hr (conj _ (conj _ (conj Hp (conj Hrel _))))).
  - unfold isPressed. rewrite Hinv.
    destruct (_state b), (_state b1), (_invert b); cbn; congruence.
  - unfold isReleased. rewrite Hinv.
    destruct (_state b), (_state b1), (_invert b); cbn; congruence.
  - clear. intros m b' w'.
    destruct m; unfold_methods; destruct b'; cbn;
      try (destruct (level w' _ _), _now0, _state0, _longState0, _invert0; cbn);
      split_ifs; intros; split; congruence.
Qed.

Lemma edges_fire_once_witness :
  one_shot is_justPressed no_method
    (isPressed (button_after (update (button_after pressing) (world_after pressing))))
    (fst (fst (run [JustPressed; JustPressed; JustReleased; Update; JustPressed]
       (button_after (update (button_after pressing) (world_after pressing)))
       (world_after (update (button_after pressing) (world_after pressing)))))).
Proof.
  refine (proj1 (proj2 (proj2 (proj2
    (edges_fire_once (button_after pressing) (world_after pressing)
       [JustPressed; JustPressed; JustReleased; Update; JustPressed] _ _)))));
    vm_compute; reflexivity.
Defined.

(** ** C4: the state [begin] leaves *)

Lemma one_shot_disarmed direct via tr :
  one_shot direct via false tr ->
  Forall (fun mr => direct (fst mr) || via (fst mr) = true -> snd mr = false) tr.
Proof.
  induction tr as [|[m r] tr IH]; intros H; constructor; cbn in *.
  - destruct (direct m); [tauto|]. destruct (via m); [|discriminate].
    destruct r; [|reflexivity]. destruct H as [H _]. symmetry. auto.
  - destruct (direct m); [tauto|]. destruct (via m); tauto.
Qed.

(** C4, as stated, fails: [begin] does not clear [_doubleClick].  Begun
    again, a button that holds a latched double click still holds it. *)
Lemma begin_keeps_doubleClick :
  ~ (_longState (fst (begin 0 2 3 4 0 double_latched (scripted_world [] []))) = false /\
     _longClick (fst (begin 0 2 3 4 0 double_latched (scripted_world [] []))) = false /\
     _doubleClick (fst (begin 0 2 3 4 0 double_latched (scripted_world [] []))) = false).
Proof. vm_compute. intros (_ & _ & H). discriminate H. Qed.

(** C4, amended.  After [begin(pin, mode)] both guards are set and
    [_longState] and [_longClick] are cleared; and as long as no [update()]
    commits a new debounced level, no call of [justPressed()],
    [justReleased()], [justClicked()], [justLongClicked()] or
    [justDoubleClicked()] returns true. *)
Theorem begin_no_event INPUT INPUT_PULLUP PULLUP pin mode raw w0 ms :
  let x := begin INPUT INPUT_PULLUP PULLUP pin mode raw w0 in
  quiet ms (fst x) (snd x) = true ->
  _isJustPressed (fst x) = true /\ _isJustReleased (fst x) = true /\
  _longState (fst x) = false /\ _longClick (fst x) = false /\
  Forall (fun mr => is_event (fst mr) = true -> snd mr = false)
    (fst (fst (run ms (fst x) (snd x)))).
Proof.
  intros x Hq.
  assert (Hb : _isJustPressed (fst x) = true /\ _isJustReleased (fst x) = true /\
               _longState (fst x) = false /\ _longClick (fst x) = false).
  { subst x. unfold begin, bind, ret, pinMode. cbn.
    destruct (mode =? INPUT_PULLUP), (mode =? PULLUP); cbn; auto. }
  destruct Hb as (Hjp & Hjr & Hls & Hlc).
  refine (conj Hjp (conj Hjr (conj Hls (conj Hlc _)))).
  destruct (quiet_one_shot ms _ _ Hq) as [Hp Hr].
  unfold press_armed in Hp. unfold release_armed in Hr.
  rewrite Hjp, andb_false_r in Hp. rewrite Hjr, andb_false_r in Hr.
  apply one_shot_disarmed in Hp, Hr.
  rewrite Forall_forall in *. intros [m r] Hin He.
  specialize (Hp _ Hin). specialize (Hr _ Hin). cbn in *.
  destruct m; cbn in *; try discriminate; auto.
Qed.

Lemma begin_no_event_witness :
  Forall (fun mr => is_event (fst mr) = true -> snd mr = false)
    (fst (fst (run [JustDoubleClicked; Update; JustClicked; JustReleased; JustPressed]
       (fst (begin 0 2 3 4 0 double_latched (scripted_world [500] [false])))
       (snd (begin 0 2 3 4 0 double_latched (scripted_world [500] [false])))))).
Proof.
  apply (begin_no_event 0 2 3 4 0 double_latched (scripted_world [500] [false])
           [JustDoubleClicked; Update; JustClicked; JustReleased; JustPressed]).
  vm_compute. reflexivity.
Defined.

(** ** C8: the clock may wrap around *)

Lemma to_ulong_shift x c : to_ulong (to_ulong x + c) = to_ulong (x + c).
Proof. unfold to_ulong. apply Zplus_mod_idemp_l. Qed.

Lemma ulong_sub_shift x y c :
  ulong_sub (to_ulong (x + c)) (to_ulong (y + c)) = ulong_sub (to_ulong x) y.
Proof.
  unfold ulong_sub, to_ulong.
  rewrite <- Zminus_mod, Zminus_mod_idemp_l. f_equal. lia.
Qed.

Lemma call_shift c m b w :
  call m (shift_button c b) (shift_world c w) =
  (returned (call m b w), shift_button c (button_after (call m b w)),
   shift_world c (world_after (call m b w))).
Proof.
  destruct m; unfold_methods; unfold shift_button, shift_world; destruct b; cbn;
    try (destruct (level w _ _), _now0, _state0, _longState0, _invert0; cbn);
    repeat (rewrite ?ulong_sub_shift;
            match goal with
            | |- context [if ?c then _ else _] =>
                lazymatch c with
                | context [if _ then _ else _] => fail
                | _ => destruct c eqn:?; cbn
                end
            end);
    rewrite ?ulong_sub_shift, ?to_ulong_shift; reflexivity.
Qed.

(** What [update()] does to the click members when it accepts a release. *)
Lemma update_release b w :
  accepted b (button_after (update b w)) = true ->
  isReleased (button_after (update b w)) = true ->
  _doubleClick (button_after (update b w)) =
    (ulong_sub (to_ulong (clock w (S (millis_calls w)))) (_timeDouble b)
     <? to_ulong (_doubleDelay b)) /\
  _timeDouble (button_after (update b w)) = to_ulong (clock w (S (S (millis_calls w)))) /\
  _longClick (button_after (update b w)) = _longClick b /\
  _isJustReleased (button_after (update b w)) = false /\
  _doubleDelay (button_after (update b w)) = _doubleDelay b.
Proof.
  unfold_methods. destruct b; cbn.
  destruct (level w _ _), _now0, _state0, _invert0; cbn; split_ifs;
    intros; repeat split; congruence.
Qed.

Lemma run_shift c ms : forall b w,
  run ms (shift_button c b) (shift_world c w) =
  (fst (fst (run ms b w)),
   shift_button c (button_after (run ms b w)),
   shift_world c (world_after (run ms b w))).
Proof.
  induction ms as [|m ms IH]; intros b w; [reflexivity|].
  cbn [run]. rewrite call_shift.
  unfold returned, button_after, world_after in *. cbn [fst snd].
  rewrite IH. reflexivity.
Qed.

(** The long window: when nothing changes and nothing is committed,
    [update()] sets [_longState] exactly when the clock is past [_time] by
    more than [_longDelay]. *)
Lemma update_long_iff b w :
  sample b w = _now b ->
  accepted b (button_after (update b w)) = false ->
  _longState b = false ->
  (_longState (button_after (update b w)) = true <->
   to_ulong (_longDelay b) <
     ulong_sub
       (to_ulong (clock w (millis_calls w + (if eqb (_state b) (_now b) then 0 else 1))%nat))
       (_time b)).
Proof.
  unfold_methods. destruct b; cbn. intros Hs Ha ->. cbn in *. revert Ha. rewrite Hs.
  destruct _now0, _state0, _invert0; cbn; split_ifs;
    rewrite ?Nat.add_0_r, ?Nat.add_1_r, ?Z.ltb_lt, ?Z.ltb_ge in *; intros;
    split; intros; try congruence; try lia.
Qed.

(** The gate of [justClicked()]. *)
Lemma justClicked_true_iff b w :
  returned (justClicked b w) = true <->
  ~ ulong_sub (reading w) (_timeDouble b) < to_ulong (_doubleDelay b) /\
  _longClick b = false /\ _doubleClick b = false /\ release_armed b = true.
Proof.
  unfold release_armed. unfold_methods. destruct b; cbn.
  destruct (ulong_sub _ _ <? to_ulong _doubleDelay0) eqn:E;
    rewrite ?Z.ltb_lt, ?Z.ltb_ge in E;
    destruct _longClick0, _doubleClick0, _state0, _invert0, _isJustReleased0; cbn;
    split; intros; repeat split; try congruence; try lia; intuition congruence.
Qed.

Lemma new_shift c raw w :
  PushButton_new (set_timeDouble (to_ulong (_timeDouble raw + c)) raw) (shift_world c w) =
  (shift_button c (fst (PushButton_new raw w)), shift_world c (snd (PushButton_new raw w))).
Proof.
  unfold PushButton_new, shift_button, shift_world, bind, ret, millis.
  destruct raw; cbn. rewrite to_ulong_shift. reflexivity.
Qed.

Lemma begin_shift INPUT INPUT_PULLUP PULLUP pin mode c b w :
  begin INPUT INPUT_PULLUP PULLUP pin mode (shift_button c b) (shift_world c w) =
  (shift_button c (fst (begin INPUT INPUT_PULLUP PULLUP pin mode b w)),
   shift_world c (snd (begin INPUT INPUT_PULLUP PULLUP pin mode b w))).
Proof.
  unfold begin, bind, ret, pinMode, shift_button, shift_world.
  change (_pinMode (set_pinMode mode (set_pin pin ?x))) with mode.
  destruct b; cbn.
  destruct (mode =? INPUT_PULLUP), (mode =? PULLUP); reflexivity.
Qed.

(** C8 does not hold of the code.  The elapsed times are differences
    modulo 2^32, but one of the time stamps is not a clock value to begin
    with: the constructor stamps [_time] with the clock and leaves
    [_timeDouble] as the storage had it, and [begin] does not assign it
    either.  A button constructed in zeroed storage holds 0 there.  Its
    first release, accepted at clock 40, is within the double-click delay
    of that 0, and [justDoubleClicked()] returns true; with every reading
    of the clock moved by 1000 the same calls end with
    [justDoubleClicked()] returning false.  The behaviour of a fresh button
    changes when the clock is shifted. *)
Theorem fresh_button_depends_on_clock :
  sketch zeroed [Update; Update; Update; Update; JustDoubleClicked] boot_world =
    [(Update, false); (Update, true); (Update, false); (Update, true);
     (JustDoubleClicked, true)] /\
  sketch zeroed [Update; Update; Update; Update; JustDoubleClicked]
    (shift_world 1000 boot_world) =
    [(Update, false); (Update, true); (Update, false); (Update, true);
     (JustDoubleClicked, false)] /\
  sketch zeroed [Update; Update; Update; Update; JustDoubleClicked]
    (shift_world 1000 boot_world) <>
  sketch zeroed [Update; Update; Update; Update; JustDoubleClicked] boot_world.
Proof. vm_compute. repeat split. discriminate. Qed.

(** X21.  Every elapsed time is the difference [now - then] taken
    modulo 2^32, [now] being a reading of the clock and [then] a time stamp
    of the button:
    - [update()] commits exactly when the raw reading is unchanged and
      differs from the state and [(now - _time) mod 2^32] is greater than
      [_debounceDelay];
    - when it sees no change and commits nothing, [update()] sets
      [_longState] exactly when [(now - _time) mod 2^32] is greater than
      [_longDelay];
    - when it accepts a release, [update()] sets [_doubleClick] exactly when
      [(now - _timeDouble) mod 2^32] is less than [_doubleDelay], and stamps
      [_timeDouble] with the clock;
    - [justClicked()] returns true exactly when
      [(now - _timeDouble) mod 2^32] is not less than [_doubleDelay], no
      latch is set and the release is there to report;
    - a change of the raw reading stamps [_time] with the clock.
    Hence a common shift of all the clock values changes nothing, the
    time stamps the button holds being clock values too: the constructor,
    [begin] and any sequence of calls of [update()] and of the accessors, run
    on a world whose clock is moved by [c] and on a button whose [_time] and
    [_timeDouble] are moved by [c] modulo 2^32, return what they return
    without the shift and leave the same button and the same world, moved
    by [c].  The constructor stamps [_time] itself; what the storage holds
    in [_timeDouble] has to be moved with the clock. *)
Theorem clock_shift_invariance :
  (forall b w,
     accepted b (button_after (update b w)) = true <->
     sample b w = _now b /\ _state b <> sample b w /\
     _debounceDelay b mod 2 ^ 32 < (reading w - _time b) mod 2 ^ 32) /\
  (forall b w,
     sample b w = _now b ->
     accepted b (button_after (update b w)) = false ->
     _longState b = false ->
     (_longState (button_after (update b w)) = true <->
      _longDelay b mod 2 ^ 32 <
        (to_ulong (clock w (millis_calls w + (if eqb (_state b) (_now b) then 0 else 1))%nat)
         - _time b) mod 2 ^ 32)) /\
  (forall b w,
     accepted b (button_after (update b w)) = true ->
     isReleased (button_after (update b w)) = true ->
     (_doubleClick (button_after (update b w)) = true <->
      (to_ulong (clock w (S (millis_calls w))) - _timeDouble b) mod 2 ^ 32
        < _doubleDelay b mod 2 ^ 32) /\
     _timeDouble (button_after (update b w)) = to_ulong (clock w (S (S (millis_calls w))))) /\
  (forall b w,
     returned (justClicked b w) = true <->
     ~ (reading w - _timeDouble b) mod 2 ^ 32 < _doubleDelay b mod 2 ^ 32 /\
     _longClick b = false /\ _doubleClick b = false /\ release_armed b = true) /\
  (forall b w,
     sample b w <> _now b -> _time (button_after (update b w)) = reading w) /\
  (forall c raw w,
     PushButton_new (set_timeDouble (to_ulong (_timeDouble raw + c)) raw) (shift_world c w) =
     (shift_button c (fst (PushButton_new raw w)), shift_world c (snd (PushButton_new raw w)))) /\
  (forall INPUT INPUT_PULLUP PULLUP pin mode c b w,
     begin INPUT INPUT_PULLUP PULLUP pin mode (shift_button c b) (shift_world c w) =
     (shift_button c (fst (begin INPUT INPUT_PULLUP PULLUP pin mode b w)),
      shift_world c (snd (begin INPUT INPUT_PULLUP PULLUP pin mode b w)))) /\
  (forall c ms b w,
     run ms (shift_button c b) (shift_world c w) =
     (fst (fst (run ms b w)),
      shift_button c (button_after (run ms b w)),
      shift_world c (world_after (run ms b w)))).
Proof.
  split; [exact update_accepted|].
  split; [exact update_long_iff|].
  split.
  { intros b w Ha Hr. destruct (update_release b w Ha Hr) as (Hd & Ht & _).
    split; [|exact Ht]. rewrite Hd. apply Z.ltb_lt. }
  split; [exact justClicked_true_iff|].
  split.
  { intros b w Hne. apply (update_raw_change_fields b w Hne). }
  split; [exact new_shift|].
  split; [exact begin_shift|].
  intros c ms b w. apply run_shift.
Qed.

(** * Properties of the group *)

(** ** C9: the group's [update()] *)

Lemma update_pin_log b w :
  _pin (button_after (update b w)) = _pin b /\
  digitalRead_log (world_after (update b w)) = _pin b :: digitalRead_log w.
Proof.
  unfold_methods. destruct b; cbn.
  destruct (level w _ _), _now0, _state0, _longState0, _invert0; cbn;
    split_ifs; auto.
Qed.

Lemma pin_of_insert (h : heap) p b b' q :
  h !! p = Some b -> _pin b' = _pin b -> pin_of (<[p := b']> h) q = pin_of h q.
Proof.
  intros Hp Hpin. unfold pin_of.
  destruct (decide (p = q)) as [->|Hne].
  - rewrite lookup_insert_eq, Hp. exact Hpin.
  - rewrite lookup_insert_ne by exact Hne. reflexivity.
Qed.

Lemma poll_each_total ps : forall (h : heap) w,
  Forall (fun p => is_Some (h !! p)) ps ->
  exists rs h' w',
    poll_each ps h w = Some (rs, h', w') /\ length rs = length ps /\
    digitalRead_log w' = rev (map (pin_of h) ps) ++ digitalRead_log w.
Proof.
  induction ps as [|p ps IH]; intros h w Hlive.
  - exists [], h, w. auto.
  - inversion Hlive as [|? ? [b Hb] Hlive']; subst.
    destruct (update_pin_log b w) as [Hpin Hlog].
    destruct (IH (<[p := button_after (update b w)]> h) (world_after (update b w)))
      as (rs & h' & w' & Hpoll & Hlen & Hrd).
    { eapply Forall_impl; [exact Hlive'|]. intros q Hq. cbn.
      destruct (decide (p = q)) as [->|Hne].
      - rewrite lookup_insert_eq. eauto.
      - rewrite lookup_insert_ne by exact Hne. exact Hq. }
    exists (returned (update b w) :: rs), h', w'.
    cbn [poll_each]. rewrite Hb. cbn -[update]. rewrite Hpoll. cbn -[update].
    split; [reflexivity|]. split; [congruence|].
    rewrite Hrd, Hlog.
    rewrite (map_ext _ _ (fun q => pin_of_insert h p b _ q Hb Hpin)).
    unfold pin_of at 3. rewrite Hb. cbn [from_option].
    rewrite <- app_assoc. reflexivity.
Qed.

Lemma update_loop_poll_each cells ps : forall i state (h : heap) w,
  (forall k p, ps !! k = Some p -> cells !! (i + k)%nat = Some (Some p)) ->
  update_loop (length ps) i cells state h w =
  (fun y => (state || existsb id (fst (fst y)), snd (fst y), snd y))
    <$> poll_each ps h w.
Proof.
  induction ps as [|p ps IH]; intros i state h w Hcells.
  - cbn. rewrite orb_false_r. reflexivity.
  - cbn [length update_loop poll_each].
    rewrite <- (Nat.add_0_r i) at 1. rewrite (Hcells 0%nat p eq_refl).
    destruct (h !! p) as [b|]; [|reflexivity]. cbn -[update].
    rewrite IH.
    + destruct (poll_each ps _ _) as [[[rs h'] w']|]; [|reflexivity].
      cbn -[update]. f_equal. f_equal. f_equal.
      destruct (returned (update b w)), state; reflexivity.
    + intros k q Hk. replace (S i + k)%nat with (i + S k)%nat by lia.
      apply Hcells. exact Hk.
Qed.

(** C9.  Let the entries of the group be the pointers [ps], one for each
    unit of [buttonsSize], all of them to live buttons.  Then the group's
    [update()] calls [update()] on every entry, once, in turn, also after an
    entry has returned true: it leaves the heap and the world that these
    calls leave, [digitalRead()] having been called once on the pin of each
    entry; and it returns true if and only if one of the calls returned
    true.  On a group without entries it returns false and changes
    nothing. *)
Theorem group_update_polls_all g ps (h : heap) w :
  entries g = map Some ps ->
  length ps = Z.to_nat (buttonsSize g) ->
  Forall (fun p => is_Some (h !! p)) ps ->
  exists r rs h' w',
    PushButtonGroup_update g h w = Some (r, h', w') /\
    poll_each ps h w = Some (rs, h', w') /\
    length rs = length ps /\
    digitalRead_log w' = rev (map (pin_of h) ps) ++ digitalRead_log w /\
    (r = true <-> In true rs) /\
    (ps = [] -> r = false /\ h' = h /\ w' = w).
Proof.
  intros Hent Hlen Hlive.
  destruct (poll_each_total ps h w Hlive) as (rs & h' & w' & Hpoll & Hrs & Hlog).
  exists (existsb id rs), rs, h', w'.
  assert (Hex : existsb id rs = true <-> In true rs).
  { rewrite existsb_exists. split.
    - intros (x & Hin & Hx). unfold id in Hx. subst x. exact Hin.
    - intros Hin. exists true. auto. }
  assert (Hnil : ps = [] -> existsb id rs = false /\ h' = h /\ w' = w).
  { intros ->. cbn in Hpoll. injection Hpoll as <- <- <-. auto. }
  refine (conj _ (conj Hpoll (conj Hrs (conj Hlog (conj Hex Hnil))))).
  unfold PushButtonGroup_update, entries in *.
  destruct (buttons g) as [|cells|].
  - destruct ps; [|discriminate Hent].
    destruct (Hnil eq_refl) as (-> & -> & ->).
    destruct (buttonsSize g <=? 0) eqn:E; [reflexivity|].
    apply Z.leb_gt in E. cbn in Hlen. lia.
  - rewrite <- Hlen, (update_loop_poll_each cells ps 0 false h w).
    + rewrite Hpoll. reflexivity.
    + intros k p Hk. cbn [Nat.add].
      assert (Hk' : (Some <$> ps) !! k = Some (Some p)).
      { rewrite list_lookup_fmap, Hk. reflexivity. }
      change (map Some ps) with (Some <$> ps) in Hent.
      rewrite <- Hent in Hk'. apply lookup_take_Some in Hk'. tauto.
  - destruct ps; [|discriminate Hent].
    destruct (Hnil eq_refl) as (-> & -> & ->).
    destruct (buttonsSize g <=? 0) eqn:E; [reflexivity|].
    apply Z.leb_gt in E. cbn in Hlen. lia.
Qed.

Lemma group_update_polls_all_witness :
  exists r rs h' w',
    PushButtonGroup_update two_buttons two_buttons_heap press_world = Some (r, h', w') /\
    poll_each [1%nat; 2%nat] two_buttons_heap press_world = Some (rs, h', w') /\
    length rs = length [1%nat; 2%nat] /\
    digitalRead_log w' =
      rev (map (pin_of two_buttons_heap) [1%nat; 2%nat]) ++ digitalRead_log press_world /\
    (r = true <-> In true rs) /\
    ([1%nat; 2%nat] = [] -> r = false /\ h' = two_buttons_heap /\ w' = press_world).
Proof.
  apply (group_update_polls_all two_buttons [1%nat; 2%nat] two_buttons_heap press_world).
  - vm_compute. reflexivity.
  - vm_compute. reflexivity.
  - repeat constructor; vm_compute; eexists; reflexivity.
Defined.

(** ** C1: [add] when the storage cannot grow *)

(** C1 does not hold of the code.  [add] counts the new entry before it
    asks for storage and returns without taking the count back when the
    request is refused: [buttons] is as it was, [buttonsSize] is one more.
    On a new group this leaves a count of 1 and no storage, and the
    [update()] that follows reads an entry that does not exist. *)
Theorem add_refused_counts_anyway sizeof_PushButton sizeof_pointer button g :
  PushButtonGroup_add sizeof_PushButton sizeof_pointer button false g =
    match buttons g with
    | Freed => None
    | _ => Some (mkPushButtonGroup (buttons g) (buttonsSize g + 1))
    end /\
  PushButtonGroup_add sizeof_PushButton sizeof_pointer button false PushButtonGroup_new =
    Some (mkPushButtonGroup Null 1) /\
  (forall (h : heap) w, PushButtonGroup_update (mkPushButtonGroup Null 1) h w = None).
Proof.
  split; [|split].
  - unfold PushButtonGroup_add, realloc. destruct (buttons g); reflexivity.
  - reflexivity.
  - reflexivity.
Qed.

(** ** C2: [remove] and duplicates *)

(** C2 does not hold of the code.  The loop of [remove] skips every entry
    equal to the pointer, while the count goes down by one.  From the group
    of the entries 1, 2, 1, removing 1 (the block being resized in place)
    leaves a count of 2 and the entries 2, 2: the second entry for 1 is no
    longer there. *)
Theorem remove_skips_every_match :
  (g ← group_of [1%nat; 2%nat; 1%nat];
   g' ← PushButtonGroup_remove 19 2 1%nat InPlace g;
   Some (entries g, buttonsSize g, entries g', buttonsSize g')) =
  Some ([Some 1%nat; Some 2%nat; Some 1%nat], 3, [Some 2%nat; Some 2%nat], 2).
Proof. vm_compute. reflexivity. Qed.

(** ** C3: [remove] of a pointer that is not in the group *)

(** C3 does not hold of the code.  [remove] never looks whether the
    pointer is in the group: whenever it returns, whatever [realloc] did,
    [buttonsSize] is one less.  From the group of the entries 1, 2, removing
    3 (the block being resized in place) leaves the count 1 and the entry 1:
    the button 2 is dropped.  From the group of the single entry 1, removing
    3 leaves the count 0 and releases the storage. *)
Theorem remove_absent_drops_last :
  (forall sizeof_PushButton sizeof_pointer button outcome g,
     match PushButtonGroup_remove sizeof_PushButton sizeof_pointer button outcome g with
     | Some g' => buttonsSize g' = buttonsSize g - 1
     | None => True
     end) /\
  (g ← group_of [1%nat; 2%nat];
   g' ← PushButtonGroup_remove 19 2 3%nat InPlace g;
   Some (entries g, buttonsSize g, entries g', buttonsSize g')) =
  Some ([Some 1%nat; Some 2%nat], 2, [Some 1%nat], 1) /\
  (g ← group_of [1%nat]; PushButtonGroup_remove 19 2 3%nat InPlace g) =
  Some (mkPushButtonGroup Freed 0).
Proof.
  split; [|split; vm_compute; reflexivity].
  intros. unfold PushButtonGroup_remove.
  destruct (buttonsSize g - 1 =? 0).
  - destruct (buttons g); auto.
  - destruct (realloc _ _ (buttons g) _ (granted_of outcome)) as [[cells|]|]; cbn; auto.
    destruct (remove_loop _ _ _ _ _ _); cbn; auto.
Qed.

(** ** What [remove] leaves when the block is resized in place *)

(** The loop of [remove] on a block resized in place, [done] being the
    entries it has read and [todo] those to come: it writes the entries that differ from [button] at the
    front, in order, and leaves the other cells as they are. *)
Lemma remove_loop_compacts button (todo : list nat) :
  forall (done : list nat) (cells0 : list (option nat)),
  take (length (done ++ todo)) cells0 = Some <$> (done ++ todo) ->
  remove_loop false button (length todo) (length done)
    (length (filter (fun p => p <> button) done))
    ((Some <$> filter (fun p => p <> button) done)
       ++ drop (length (filter (fun p => p <> button) done)) cells0) =
  Some ((Some <$> filter (fun p => p <> button) (done ++ todo))
          ++ drop (length (filter (fun p => p <> button) (done ++ todo))) cells0).
Proof.
  induction todo as [|x todo IH]; intros done cells0 Hcells.
  - rewrite app_nil_r. reflexivity.
  - set (kept := filter (fun p => p <> button) done).
    assert (Hk : (length kept <= length done)%nat) by apply length_filter.
    assert (Hlen : (length (done ++ x :: todo) <= length cells0)%nat).
    { apply (f_equal length) in Hcells.
      rewrite length_take, length_fmap in Hcells. lia. }
    assert (Hread : forall i y, (done ++ x :: todo) !! i = Some y ->
                                cells0 !! i = Some (Some y)).
    { intros i y Hi.
      assert (Hi' : (Some <$> (done ++ x :: todo)) !! i = Some (Some y)).
      { rewrite list_lookup_fmap, Hi. reflexivity. }
      rewrite <- Hcells in Hi'. apply lookup_take_Some in Hi'. tauto. }
    assert (Hx : cells0 !! length done = Some (Some x)).
    { apply Hread. rewrite lookup_app_r by lia.
      rewrite Nat.sub_diag. reflexivity. }
    rewrite length_app in Hlen. cbn [length] in Hlen.
    specialize (IH (done ++ [x]) cells0).
    rewrite <- app_assoc in IH. cbn [app] in IH. specialize (IH Hcells).
    rewrite length_app in IH. cbn [length] in IH.
    rewrite Nat.add_1_r in IH. rewrite filter_app in IH. fold kept in IH.
    cbn [length remove_loop].
    rewrite lookup_app_r by (rewrite length_fmap; lia).
    rewrite length_fmap, lookup_drop.
    replace (length kept + (length done - length kept))%nat
      with (length done) by lia.
    rewrite Hx.
    destruct (decide (x = button)) as [Heq|Hne].
    + rewrite filter_cons_False in IH by (intros H; apply H; exact Heq).
      rewrite filter_nil, app_nil_r in IH. exact IH.
    + rewrite filter_cons_True in IH by exact Hne.
      rewrite filter_nil, length_app in IH. cbn [length] in IH.
      rewrite Nat.add_1_r in IH.
      rewrite decide_True
        by (rewrite length_app, length_fmap, length_drop; lia).
      destruct (lookup_lt_is_Some_2 cells0 (length kept)) as [c Hc]; [lia|].
      rewrite insert_app_r_alt by (rewrite length_fmap; lia).
      rewrite length_fmap, Nat.sub_diag, (drop_S _ _ _ Hc). cbn [insert list_insert].
      rewrite fmap_app, <- app_assoc in IH. exact IH.
Qed.

(** A [remove] whose [realloc] resizes the block in place, on a group of
    two entries or more, when the shrunk block still has room for all of
    them: the count goes down by one, the
    entries that differ from [button] come first, and the places after them
    keep the old entries. *)
Lemma remove_granted_entries sizeof_PushButton sizeof_pointer button g (l : list nat) :
  entries g = Some <$> l ->
  length l = Z.to_nat (buttonsSize g) ->
  (2 <= length l)%nat ->
  (length l <= cells_of sizeof_PushButton sizeof_pointer (buttonsSize g - 1))%nat ->
  exists g',
    PushButtonGroup_remove sizeof_PushButton sizeof_pointer button InPlace g = Some g' /\
    buttonsSize g' = buttonsSize g - 1 /\
    entries g' =
      Some <$> take (length l - 1)
        (filter (fun p => p <> button) l
           ++ drop (length (filter (fun p => p <> button) l)) l).
Proof.
  intros Hent Hlen H2 Hroom.
  unfold entries in Hent. destruct (buttons g) as [|cells|] eqn:Hb;
    try (destruct l; [cbn in H2; lia|discriminate Hent]).
  rewrite <- Hlen in Hent.
  set (m := cells_of sizeof_PushButton sizeof_pointer (buttonsSize g - 1)) in *.
  set (F := filter (fun p => p <> button) l).
  assert (HF : (length F <= length l)%nat) by apply length_filter.
  assert (Hcl : (length l <= length cells)%nat).
  { apply (f_equal length) in Hent. rewrite length_take, length_fmap in Hent. lia. }
  assert (Htake : take (length l) (resize m None cells) = Some <$> l).
  { rewrite take_resize_le by exact Hroom. rewrite resize_le by exact Hcl.
    exact Hent. }
  pose proof (remove_loop_compacts button l [] (resize m None cells) Htake) as Hloop.
  cbn [app length filter fmap list_fmap drop] in Hloop. fold F in Hloop.
  unfold PushButtonGroup_remove, realloc. rewrite Hb.
  destruct (buttonsSize g - 1 =? 0) eqn:E; [apply Z.eqb_eq in E; lia|].
  cbn [mbind option_bind granted_of]. fold m.
  replace (Z.to_nat (buttonsSize g - 1 + 1)) with (length l) by lia.
  rewrite filter_nil in Hloop. cbn [fmap list_fmap length app] in Hloop.
  rewrite drop_0 in Hloop. rewrite Hloop. cbn [mbind option_bind].
  eexists. split; [reflexivity|]. split; [reflexivity|].
  unfold entries. cbn [buttons buttonsSize].
  replace (Z.to_nat (buttonsSize g - 1)) with (length l - 1)%nat by lia.
  rewrite <- (take_drop (length l) (resize m None cells)) at 1.
  rewrite Htake, drop_app_le by (rewrite length_fmap; exact HF).
  rewrite app_assoc, <- fmap_drop, <- fmap_app.
  rewrite take_app_le, fmap_take; [reflexivity|].
  rewrite length_fmap, length_app, length_drop. lia.
Qed.

(** X15.  When [realloc] resizes the block in place, removing the one
    entry for [button] from a group of two entries or more without
    duplicates takes the count down by one and leaves the other entries, in
    order. *)
Lemma remove_member sizeof_PushButton sizeof_pointer button g (l : list nat) :
  entries g = Some <$> l ->
  length l = Z.to_nat (buttonsSize g) ->
  (2 <= length l)%nat ->
  (length l <= cells_of sizeof_PushButton sizeof_pointer (buttonsSize g - 1))%nat ->
  NoDup l -> button ∈ l ->
  exists g',
    PushButtonGroup_remove sizeof_PushButton sizeof_pointer button InPlace g = Some g' /\
    buttonsSize g' = buttonsSize g - 1 /\
    entries g' = Some <$> filter (fun p => p <> button) l.
Proof.
  intros Hent Hlen H2 Hroom Hnd Hin.
  destruct (remove_granted_entries _ _ button g l Hent Hlen H2 Hroom)
    as (g' & Hrm & Hsz & He).
  exists g'. split; [exact Hrm|]. split; [exact Hsz|]. rewrite He. f_equal.
  assert (HF : length (filter (fun p => p <> button) l) = (length l - 1)%nat).
  { clear - Hnd Hin. induction Hnd as [|x l Hx Hnd IH]; [inversion Hin|].
    destruct (decide (x = button)) as [->|Hne].
    - rewrite filter_cons_False by (intros H; apply H; reflexivity).
      assert (E : filter (fun p => p <> button) l = l).
      { clear - Hx. induction l as [|y l IH]; [reflexivity|].
        rewrite filter_cons_True.
        - f_equal. apply IH. intros H. apply Hx. right. exact H.
        - intros ->. apply Hx. left. }
      rewrite E. cbn. lia.
    - rewrite filter_cons_True by exact Hne. cbn [length].
      apply elem_of_cons in Hin as [->|Hin]; [congruence|].
      rewrite (IH Hin). destruct l; [inversion Hin|cbn; lia]. }
  rewrite take_app_le by lia. apply take_ge. lia.
Qed.

(** X16.  [remove] does not look whether the pointer is in the group: when
    [realloc] resizes the block in place, removing a pointer that is in no
    entry of a group of two entries or more takes the count down by one and
    drops the last entry. *)
Lemma remove_absent sizeof_PushButton sizeof_pointer button g (l : list nat) :
  entries g = Some <$> l ->
  length l = Z.to_nat (buttonsSize g) ->
  (2 <= length l)%nat ->
  (length l <= cells_of sizeof_PushButton sizeof_pointer (buttonsSize g - 1))%nat ->
  button ∉ l ->
  exists g',
    PushButtonGroup_remove sizeof_PushButton sizeof_pointer button InPlace g = Some g' /\
    buttonsSize g' = buttonsSize g - 1 /\
    entries g' = Some <$> take (length l - 1) l.
Proof.
  intros Hent Hlen H2 Hroom Hnin.
  destruct (remove_granted_entries _ _ button g l Hent Hlen H2 Hroom)
    as (g' & Hrm & Hsz & He).
  exists g'. split; [exact Hrm|]. split; [exact Hsz|]. rewrite He. f_equal.
  assert (E : filter (fun p => p <> button) l = l).
  { clear - Hnin. induction l as [|y l IH]; [reflexivity|].
    rewrite filter_cons_True.
    - f_equal. apply IH. intros H. apply Hnin. right. exact H.
    - intros ->. apply Hnin. left. }
  rewrite E, take_app_le by lia. reflexivity.
Qed.

(** X20.  When [realloc] moves the block, [remove] reads the old one: on a
    group of two entries or more, the loop reads [buttons[0]] through the
    pointer it had before [realloc], which now points to released storage
    (or is [NULL]), and the call has no defined behaviour. *)
Theorem remove_moved sizeof_PushButton sizeof_pointer button g :
  2 <= buttonsSize g ->
  PushButtonGroup_remove sizeof_PushButton sizeof_pointer button Moved g = None.
Proof.
  intros H2. unfold PushButtonGroup_remove, realloc.
  destruct (buttonsSize g - 1 =? 0) eqn:E; [apply Z.eqb_eq in E; lia|].
  replace (Z.to_nat (buttonsSize g - 1 + 1)) with (S (Z.to_nat (buttonsSize g - 1))) by lia.
  destruct (buttons g); reflexivity.
Qed.

(** ** The model at work *)

(** A click on [button_at_rest], with the accessors called along the way.
    The press is seen at clock 1010 and accepted at 1020, and
    [justPressed()] fires once.  The release is seen at 1030 and accepted at
    1040; [justClicked()] is still false at 1100, inside the double-click
    delay, and true at 1400, after which [justReleased()] finds the edge
    consumed. *)
Example click_transcript :
  fst (fst (run [Update; Update; IsPressed; JustPressed; JustPressed;
                 Update; Update; IsReleased; JustClicked; JustClicked; JustReleased]
              button_at_rest
              (scripted_world [1010; 1020; 1030; 1040; 1040; 1040; 1100; 1400]
                 [true; true; false; false]))) =
  [(Update, false); (Update, true); (IsPressed, true); (JustPressed, true);
   (JustPressed, false); (Update, false); (Update, true); (IsReleased, true);
   (JustClicked, false); (JustClicked, true); (JustReleased, false)].
Proof. vm_compute. reflexivity. Qed.

(** Adding three buttons and removing the middle one. *)
Example add_remove_entries :
  (g ← group_of [1%nat; 2%nat; 3%nat];
   g' ← PushButtonGroup_remove 19 2 2%nat InPlace g;
   Some (entries g, entries g', buttonsSize g')) =
  Some ([Some 1%nat; Some 2%nat; Some 3%nat], [Some 1%nat; Some 3%nat], 2).
Proof. vm_compute. reflexivity. Qed.

(** Adding one button and removing it gives back the count 0. *)
Example add_remove_empty :
  (g ← group_of [1%nat]; PushButtonGroup_remove 19 2 1%nat InPlace g) =
  Some (mkPushButtonGroup Freed 0).
Proof. vm_compute. reflexivity. Qed.

(** * Further properties of the button *)

(** ** What [update()] returns and what it touches *)

(** X1.  [update()] returns true exactly when it changes the debounced state or
    sets [_longState]: a call that returns false has done neither, and a
    call that returns true has done one of the two. *)
Theorem update_true_iff b w :
  returned (update b w) = true <->
  accepted b (button_after (update b w)) = true \/
  (_longState b = false /\ _longState (button_after (update b w)) = true).
Proof.
  unfold_methods. destruct b; cbn.
  destruct (level w _ _), _now0, _state0, _longState0, _invert0; cbn; split_ifs;
    intuition congruence.
Qed.

(** X2.  [update()] commits exactly when the sample equals the previous raw
    reading, differs from [_state], and the clock is past [_time] by more
    than [_debounceDelay].  It then returns true, moves [_state] to
    [_pState] and the sample to [_state], clears [_longState] and both
    guards, and leaves [_time] alone; a press also clears [_longClick]. *)
Theorem update_commit b w :
  let b' := button_after (update b w) in
  (accepted b b' = true <->
   sample b w = _now b /\ _state b <> sample b w /\
   to_ulong (_debounceDelay b) < ulong_sub (reading w) (_time b)) /\
  (accepted b b' = true ->
   returned (update b w) = true /\ _state b' = sample b w /\ _pState b' = _state b /\
   _longState b' = false /\ _isJustPressed b' = false /\ _isJustReleased b' = false /\
   _time b' = _time b /\ (isPressed b' = true -> _longClick b' = false)).
Proof.
  split; [apply update_accepted|].
  unfold_methods. destruct b; cbn.
  destruct (level w _ _), _now0, _state0, _longState0, _invert0; cbn; split_ifs;
    intros; repeat split; intros; congruence.
Qed.

(** X3.  No method changes the pin, the modes, the polarity or the delays, and
    none calls [pinMode()].  [update()] reads its pin once and the clock at
    most three times; [justClicked()] reads the clock once; the other
    accessors do not talk to the environment at all. *)
Theorem call_frame m b w :
  let b' := button_after (call m b w) in
  let w' := world_after (call m b w) in
  (_pin b' = _pin b /\ _pinMode b' = _pinMode b /\ _invert b' = _invert b /\
   _debounceDelay b' = _debounceDelay b /\ _longDelay b' = _longDelay b /\
   _doubleDelay b' = _doubleDelay b) /\
  pinMode_log w' = pinMode_log w /\
  digitalRead_log w' =
    (if decide (m = Update) then _pin b :: digitalRead_log w else digitalRead_log w) /\
  (millis_calls w <= millis_calls w' <= millis_calls w + 3)%nat /\
  (m = JustClicked -> millis_calls w' = S (millis_calls w)) /\
  (m <> Update -> m <> JustClicked -> w' = w).
Proof.
  destruct m; unfold_methods; destruct b, w; cbn;
    try (destruct (level0 _ _), _now0, _state0, _longState0, _invert0; cbn);
    split_ifs; repeat split; intros; try congruence; try lia.
Qed.

(** ** The rest position *)

(** What [begin] computes. *)
Lemma begin_eval INPUT INPUT_PULLUP PULLUP pin mode raw w :
  begin INPUT INPUT_PULLUP PULLUP pin mode raw w =
  (let inv := (mode =? INPUT_PULLUP) || (mode =? PULLUP) in
   mkPushButton pin mode inv inv inv inv inv false true true
     (_time raw) (_timeDouble raw) (_debounceDelay raw) (_longDelay raw)
     (_doubleDelay raw) false (_doubleClick raw),
   mkWorld (millis_calls w) (digitalRead_log w)
     ((pin, if mode =? INPUT_PULLUP then INPUT_PULLUP else INPUT) :: pinMode_log w)
     (clock w) (level w)).
Proof.
  unfold begin, bind, ret, pinMode.
  change (_pinMode (set_pinMode mode (set_pin pin raw))) with mode.
  change (_pin (set_pinMode mode (set_pin pin raw))) with pin.
  destruct (mode =? INPUT_PULLUP), (mode =? PULLUP); destruct raw; reflexivity.
Qed.

(** X4.  Whatever the pin, the mode and the storage, [begin] leaves the button
    released and not long-released, with the raw readings and the debounced
    states all at the idle level of the wiring, so that nothing is waiting
    to be committed.  The polarity is inverted exactly for the modes
    [INPUT_PULLUP] and [PULLUP]; the pin is configured by one call of
    [pinMode()], with [INPUT_PULLUP] for that mode and with [INPUT] for any
    other, [PULLUP] included.  The clock is not read, and the time stamps,
    the delays and [_doubleClick] are as they were. *)
Theorem begin_rest INPUT INPUT_PULLUP PULLUP pin mode raw w :
  let b := fst (begin INPUT INPUT_PULLUP PULLUP pin mode raw w) in
  let w' := snd (begin INPUT INPUT_PULLUP PULLUP pin mode raw w) in
  isPressed b = false /\ isReleased b = true /\
  isLongPressed b = false /\ isLongReleased b = false /\
  _state b = _invert b /\ _pState b = _invert b /\
  _now b = _invert b /\ _prev b = _invert b /\
  (_invert b = true <-> mode = INPUT_PULLUP \/ mode = PULLUP) /\
  _pin b = pin /\ _pinMode b = mode /\
  pinMode_log w' =
    (pin, if mode =? INPUT_PULLUP then INPUT_PULLUP else INPUT) :: pinMode_log w /\
  millis_calls w' = millis_calls w /\ digitalRead_log w' = digitalRead_log w /\
  _time b = _time raw /\ _timeDouble b = _timeDouble raw /\
  _doubleClick b = _doubleClick raw /\
  _debounceDelay b = _debounceDelay raw /\ _longDelay b = _longDelay raw /\
  _doubleDelay b = _doubleDelay raw.
Proof.
  rewrite begin_eval. cbv zeta.
  unfold isPressed, isReleased, isLongPressed, isLongReleased. cbn.
  destruct (mode =? INPUT_PULLUP) eqn:E1, (mode =? PULLUP) eqn:E2; cbn;
    rewrite ?Z.eqb_eq, ?Z.eqb_neq in *; repeat split; intros; auto;
    try discriminate; tauto.
Qed.

(** X5.  Beginning twice is beginning once, as far as the button goes. *)
Theorem begin_twice INPUT INPUT_PULLUP PULLUP pin mode raw w w' :
  fst (begin INPUT INPUT_PULLUP PULLUP pin mode
         (fst (begin INPUT INPUT_PULLUP PULLUP pin mode raw w)) w') =
  fst (begin INPUT INPUT_PULLUP PULLUP pin mode raw w).
Proof. rewrite !begin_eval. reflexivity. Qed.

Lemma commit_needs_raw_change_witness :
  accepted
    (button_after (run [Update; JustPressed; Update]
       (fst (begin 0 2 3 4 2 zeroed (scripted_world [] [true; true])))
       (snd (begin 0 2 3 4 2 zeroed (scripted_world [] [true; true])))))
    (button_after
       (update
          (button_after (run [Update; JustPressed; Update]
             (fst (begin 0 2 3 4 2 zeroed (scripted_world [] [true; true])))
             (snd (begin 0 2 3 4 2 zeroed (scripted_world [] [true; true])))))
          (world_after (run [Update; JustPressed; Update]
             (fst (begin 0 2 3 4 2 zeroed (scripted_world [] [true; true])))
             (snd (begin 0 2 3 4 2 zeroed (scripted_world [] [true; true]))))))) =
  false.
Proof.
  apply (commit_needs_raw_change 0 2 3 4 2 zeroed (scripted_world [] [true; true])
           [Update; JustPressed; Update]).
  vm_compute. reflexivity.
Defined.

(** ** Long presses and long releases *)

Lemma call_long_step m b w :
  _longState b = true ->
  accepted b (button_after (call m b w)) = false ->
  _longState (button_after (call m b w)) = true /\
  _state (button_after (call m b w)) = _state b /\
  _invert (button_after (call m b w)) = _invert b /\
  (m = Update -> returned (call m b w) = false).
Proof.
  destruct m; unfold_methods; destruct b; cbn; intros ->;
    try (destruct (level w _ _), _now0, _state0, _invert0; cbn);
    split_ifs; intros; repeat split; intros; congruence.
Qed.

(** X7.  Once [_longState] is set it stays set until a new level is committed:
    through calls that commit nothing, [isLongPressed()] and
    [isLongReleased()] keep answering like [isPressed()] and
    [isReleased()], and no [update()] returns true again. *)
Theorem long_latch_holds ms : forall b w,
  _longState b = true ->
  quiet ms b w = true ->
  _longState (button_after (run ms b w)) = true /\
  isLongPressed (button_after (run ms b w)) = isPressed b /\
  isLongReleased (button_after (run ms b w)) = isReleased b /\
  Forall (fun mr => fst mr = Update -> snd mr = false) (fst (fst (run ms b w))).
Proof.
  induction ms as [|m ms IH]; intros b w Hl Hq.
  - cbn. unfold isLongPressed, isLongReleased, isPressed, isReleased.
    rewrite Hl, !andb_true_r. auto.
  - cbn [quiet] in Hq. apply andb_prop in Hq as [Ha Hq].
    apply negb_true_iff in Ha.
    destruct (call_long_step m b w Hl Ha) as (Hl' & Hs & Hi & Hu).
    destruct (IH _ _ Hl' Hq) as (H1 & H2 & H3 & H4).
    change (button_after (run (m :: ms) b w))
      with (button_after (run ms (button_after (call m b w)) (world_after (call m b w)))).
    refine (conj H1 (conj _ (conj _ _))).
    + rewrite H2. unfold isPressed. rewrite Hs, Hi. reflexivity.
    + rewrite H3. unfold isReleased. rewrite Hs, Hi. reflexivity.
    + cbn [run fst snd]. constructor; [exact Hu|exact H4].
Qed.

Lemma long_latch_holds_witness :
  isLongPressed
    (button_after (run [IsLongPressed; Update; JustPressed; Update]
       long_pressed_button long_pressed_world)) =
  isPressed long_pressed_button.
Proof.
  refine (proj1 (proj2
    (long_latch_holds [IsLongPressed; Update; JustPressed; Update]
       long_pressed_button long_pressed_world _ _))); vm_compute; reflexivity.
Defined.

Lemma update_long_latch b w :
  _longState b = false ->
  _longState (button_after (update b w)) = true ->
  sample b w = _now b /\ returned (update b w) = true /\
  accepted b (button_after (update b w)) = false /\
  to_ulong (_longDelay b) <
    ulong_sub
      (to_ulong (clock w (millis_calls w + (if eqb (_state b) (_now b) then 0 else 1))%nat))
      (_time b) /\
  _longClick (button_after (update b w)) = isPressed b || _longClick b.
Proof.
  unfold_methods. destruct b; cbn. intros ->.
  destruct (level w _ _), _now0, _state0, _invert0; cbn; split_ifs;
    rewrite ?Nat.add_0_r, ?Nat.add_1_r, ?Z.ltb_lt in *; intros;
    repeat split; try congruence; try assumption.
Qed.

Lemma call_keeps m b w :
  _longDelay (button_after (call m b w)) = _longDelay b /\
  pinMode_log (world_after (call m b w)) = pinMode_log w.
Proof.
  destruct m; unfold_methods; destruct b, w; cbn;
    try (destruct (level0 _ _), _now0, _state0, _longState0, _invert0; cbn);
    split_ifs; split; reflexivity.
Qed.

Lemma steady_run_longDelay ms : forall b w,
  _longDelay (button_after (run ms b w)) = _longDelay b.
Proof.
  induction ms as [|m ms IH]; intros b w; [reflexivity|].
  change (button_after (run (m :: ms) b w))
    with (button_after (run ms (button_after (call m b w)) (world_after (call m b w)))).
  rewrite IH. apply (call_keeps m b w).
Qed.

(** X8.  Let the raw reading change at one [update()] and stay the same through
    the calls [ms] that follow.  If the [update()] after [ms] sets
    [_longState], it returns true and commits nothing, its sample is the
    value held since the change, and the clock it compares (its first
    reading, or its second when a change of level is still waiting for the
    debounce delay) is later than the clock read at the change by strictly
    more than [_longDelay]: a long press is timed from the last change of
    the raw reading.  [_longClick] is set with it when the level is
    pressed. *)
Theorem long_press_window b w ms :
  let x1 := update b w in
  let b1 := button_after x1 in
  let x2 := run ms b1 (world_after x1) in
  let b2 := button_after x2 in
  let w2 := world_after x2 in
  let b3 := button_after (update b2 w2) in
  sample b w <> _now b ->
  steady ms b1 (world_after x1) = true ->
  _longState b2 = false ->
  _longState b3 = true ->
  returned (update b2 w2) = true /\ accepted b2 b3 = false /\
  sample b2 w2 = sample b w /\
  to_ulong (_longDelay b1) <
    ulong_sub
      (to_ulong (clock w2 (millis_calls w2 + (if eqb (_state b2) (_now b2) then 0 else 1))%nat))
      (reading w) /\
  _longClick b3 = isPressed b2 || _longClick b2.
Proof.
  intros x1 b1 x2 b2 w2 b3 Hflip Hsteady Hl2 Hl3.
  destruct (update_raw_change_fields b w Hflip) as (_ & Hnow & Htime & _).
  fold x1 b1 in Hnow, Htime.
  destruct (steady_run ms b1 (world_after x1) Hsteady) as (Hn2 & Ht2 & _).
  fold x2 b2 in Hn2, Ht2.
  destruct (update_long_latch b2 w2 Hl2 Hl3) as (Hs & Hr & Ha & Hlt & Hlc).
  pose proof (steady_run_longDelay ms b1 (world_after x1)) as Hd. fold x2 b2 in Hd.
  rewrite Ht2, Htime, Hd in Hlt.
  repeat split; try assumption; congruence.
Qed.

Lemma long_press_window_witness :
  let x1 := update button_at_rest long_world in
  let b1 := button_after x1 in
  let x2 := run [Update] b1 (world_after x1) in
  let b2 := button_after x2 in
  let w2 := world_after x2 in
  let b3 := button_after (update b2 w2) in
  returned (update b2 w2) = true /\ accepted b2 b3 = false /\
  sample b2 w2 = sample button_at_rest long_world /\
  to_ulong (_longDelay b1) <
    ulong_sub
      (to_ulong (clock w2 (millis_calls w2 + (if eqb (_state b2) (_now b2) then 0 else 1))%nat))
      (reading long_world) /\
  _longClick b3 = isPressed b2 || _longClick b2.
Proof.
  apply (long_press_window button_at_rest long_world [Update]);
    vm_compute; try reflexivity. discriminate.
Defined.

(** ** One report per edge *)

Lemma one_shot_fires direct via f armed tr :
  (forall m, f m = direct m || via m) ->
  one_shot direct via armed tr ->
  (fires f tr <= if armed then 1 else 0)%nat.
Proof.
  intros Hf. revert armed. unfold fires.
  induction tr as [|[m r] tr IH]; intros armed H; cbn [List.filter fst snd one_shot] in *.
  - cbn. destruct armed; lia.
  - rewrite Hf. destruct (direct m); cbn [orb andb].
    + destruct H as [-> H]. apply IH in H. destruct armed; cbn [length] in *; lia.
    + destruct (via m); cbn [andb].
      * destruct H as [Hr H]. apply IH in H. destruct r; cbn [negb andb length] in *.
        -- rewrite (Hr eq_refl) in *. cbn in H. lia.
        -- rewrite andb_true_r in H. exact H.
      * apply IH in H. exact H.
Qed.

(** X9.  Between two commits an edge is reported once at most.  Through calls
    that commit nothing, [justPressed()] returns true at most once, and so
    do [justReleased()], [justClicked()], [justLongClicked()] and
    [justDoubleClicked()] taken together: one release is reported by one of
    the four accessors only.  Where the level is not there, or the guard is
    set, none returns true. *)
Theorem one_report_per_edge ms b w :
  quiet ms b w = true ->
  (fires is_justPressed (fst (fst (run ms b w))) <= 1)%nat /\
  (fires takes_release (fst (fst (run ms b w))) <= 1)%nat /\
  (press_armed b = false -> fires is_justPressed (fst (fst (run ms b w))) = 0%nat) /\
  (release_armed b = false -> fires takes_release (fst (fst (run ms b w))) = 0%nat).
Proof.
  intros Hq. destruct (quiet_one_shot ms b w Hq) as [Hp Hr].
  apply (one_shot_fires _ _ is_justPressed) in Hp;
    [|intros m; unfold no_method; rewrite orb_false_r; reflexivity].
  apply (one_shot_fires _ _ takes_release) in Hr; [|reflexivity].
  destruct (press_armed b), (release_armed b); repeat split; intros;
    try discriminate; lia.
Qed.

Lemma one_report_per_edge_witness :
  (fires takes_release
     (fst (fst (run [JustClicked; JustClicked; JustReleased; JustLongClicked]
        (button_after (update releasing_button releasing_world))
        (world_after (update releasing_button releasing_world))))) <= 1)%nat.
Proof.
  refine (proj1 (proj2
    (one_report_per_edge [JustClicked; JustClicked; JustReleased; JustLongClicked]
       (button_after (update releasing_button releasing_world))
       (world_after (update releasing_button releasing_world)) _))).
  vm_compute. reflexivity.
Defined.

(** ** Which accessor reports a release *)

Lemma call_no_click m b w :
  release_armed b = false \/ _longClick b = true \/ _doubleClick b = true ->
  accepted b (button_after (call m b w)) = false ->
  (release_armed (button_after (call m b w)) = false \/
   _longClick (button_after (call m b w)) = true \/
   _doubleClick (button_after (call m b w)) = true) /\
  (m = JustClicked -> returned (call m b w) = false).
Proof.
  unfold release_armed.
  destruct m; unfold_methods; destruct b; cbn;
    destruct _state0, _invert0, _isJustReleased0, _longClick0, _doubleClick0; cbn;
    try (destruct (level w _ _), _now0, _longState0; cbn);
    split_ifs; rewrite ?orb_true_r, ?orb_false_r in *; intros; split; intros;
    first [congruence | intuition congruence].
Qed.

(** X10.  [justClicked()] does not report a long click or a double click: while
    [_longClick] or [_doubleClick] is set, or the release is not there to
    report, it returns false, and it goes on returning false through any
    calls that commit nothing, also after [justLongClicked()] or
    [justDoubleClicked()] has taken the release and cleared the latch. *)
Theorem no_click_while_latched ms : forall b w,
  release_armed b = false \/ _longClick b = true \/ _doubleClick b = true ->
  quiet ms b w = true ->
  Forall (fun mr => fst mr = JustClicked -> snd mr = false) (fst (fst (run ms b w))).
Proof.
  induction ms as [|m ms IH]; intros b w Hinv Hq; [constructor|].
  cbn [quiet] in Hq. apply andb_prop in Hq as [Ha Hq]. apply negb_true_iff in Ha.
  destruct (call_no_click m b w Hinv Ha) as [Hinv' Hr].
  cbn [run fst snd]. constructor; [exact Hr|]. apply IH; assumption.
Qed.

Lemma no_click_while_latched_witness :
  Forall (fun mr => fst mr = JustClicked -> snd mr = false)
    (fst (fst (run [JustClicked; JustDoubleClicked; JustClicked; Update; JustClicked]
       double_latched (scripted_world [5000; 5001; 5002; 5003] [false])))).
Proof.
  apply (no_click_while_latched
           [JustClicked; JustDoubleClicked; JustClicked; Update; JustClicked]
           double_latched (scripted_world [5000; 5001; 5002; 5003] [false])).
  - right. right. vm_compute. reflexivity.
  - vm_compute. reflexivity.
Defined.

Lemma call_idle_released m b w :
  takes_release m = false ->
  accepted b (button_after (call m b w)) = false ->
  isReleased (button_after (call m b w)) = isReleased b /\
  _isJustReleased (button_after (call m b w)) = _isJustReleased b /\
  (isReleased b = true -> _longClick (button_after (call m b w)) = _longClick b) /\
  _doubleClick (button_after (call m b w)) = _doubleClick b /\
  _timeDouble (button_after (call m b w)) = _timeDouble b /\
  _doubleDelay (button_after (call m b w)) = _doubleDelay b.
Proof.
  destruct m; try discriminate; unfold_methods; destruct b; cbn;
    try (destruct (level w _ _), _now0, _state0, _longState0, _invert0; cbn);
    split_ifs; intros; repeat split; intros; congruence.
Qed.

Lemma run_idle_released ms : forall b w,
  forallb (fun m => negb (takes_release m)) ms = true ->
  quiet ms b w = true ->
  isReleased b = true ->
  isReleased (button_after (run ms b w)) = true /\
  _isJustReleased (button_after (run ms b w)) = _isJustReleased b /\
  _longClick (button_after (run ms b w)) = _longClick b /\
  _doubleClick (button_after (run ms b w)) = _doubleClick b /\
  _timeDouble (button_after (run ms b w)) = _timeDouble b /\
  _doubleDelay (button_after (run ms b w)) = _doubleDelay b.
Proof.
  induction ms as [|m ms IH]; intros b w Hms Hq Hrel; [cbn; repeat split; auto|].
  cbn [forallb] in Hms. apply andb_prop in Hms as [Hm Hms].
  apply negb_true_iff in Hm.
  cbn [quiet] in Hq. apply andb_prop in Hq as [Ha Hq]. apply negb_true_iff in Ha.
  destruct (call_idle_released m b w Hm Ha) as (H1 & H2 & H3 & H4 & H5 & H6).
  change (button_after (run (m :: ms) b w))
    with (button_after (run ms (button_after (call m b w)) (world_after (call m b w)))).
  destruct (IH _ _ Hms Hq) as (I1 & I2 & I3 & I4 & I5 & I6); [congruence|].
  rewrite I2, I3, I4, I5, I6, H2, (H3 Hrel), H4, H5, H6. repeat split. exact I1.
Qed.

(** X11.  Let [update()] accept a release, and let calls follow that commit
    nothing and are none of the four release accessors.  Then the release is
    still there to report: [justReleased()] would return true,
    [justLongClicked()] what [_longClick] was before the release,
    [justDoubleClicked()] what the acceptance decided for [_doubleClick],
    and [justClicked()] true exactly when neither latch is set and the
    clock it reads is [_doubleDelay] or more past the stamp of the
    acceptance, which is the third reading of the clock in that
    [update()]. *)
Theorem release_report b w ms :
  let x1 := update b w in
  let b1 := button_after x1 in
  let x2 := run ms b1 (world_after x1) in
  let b2 := button_after x2 in
  let w2 := world_after x2 in
  accepted b b1 = true ->
  isReleased b1 = true ->
  forallb (fun m => negb (takes_release m)) ms = true ->
  quiet ms b1 (world_after x1) = true ->
  fst (justReleased b2) = true /\
  fst (justLongClicked b2) = _longClick b /\
  fst (justDoubleClicked b2) = _doubleClick b1 /\
  returned (justClicked b2 w2) =
    negb (ulong_sub (reading w2) (to_ulong (clock w (S (S (millis_calls w)))))
          <? to_ulong (_doubleDelay b))
    && negb (_longClick b || _doubleClick b1).
Proof.
  intros x1 b1 x2 b2 w2 Ha Hrel Hms Hq.
  destruct (update_release b w Ha Hrel) as (_ & Ht & Hlc & Hg & Hdd).
  fold x1 b1 in Ht, Hlc, Hg, Hdd.
  destruct (run_idle_released ms b1 (world_after x1) Hms Hq Hrel)
    as (R1 & R2 & R3 & R4 & R5 & R6).
  fold x2 b2 in R1, R2, R3, R4, R5, R6.
  rewrite Hg in R2. rewrite Hlc in R3. rewrite Ht in R5. rewrite Hdd in R6.
  clearbody b2 w2. clear - R1 R2 R3 R4 R5 R6.
  unfold justReleased, justLongClicked, justDoubleClicked, justClicked,
    justReleased, returned, bind, ret, millis, reading. cbn.
  rewrite R1, R2, R3, R4, R5, R6. cbn.
  destruct (_longClick b), (_doubleClick b1),
    (ulong_sub _ _ <? to_ulong (_doubleDelay b)); cbn; auto.
Qed.

Lemma release_report_witness :
  let x1 := update releasing_button releasing_world in
  let b1 := button_after x1 in
  let x2 := run [IsReleased; JustPressed] b1 (world_after x1) in
  let b2 := button_after x2 in
  let w2 := world_after x2 in
  fst (justReleased b2) = true /\
  fst (justLongClicked b2) = _longClick releasing_button /\
  fst (justDoubleClicked b2) = _doubleClick b1 /\
  returned (justClicked b2 w2) =
    negb (ulong_sub (reading w2)
            (to_ulong (clock releasing_world (S (S (millis_calls releasing_world)))))
          <? to_ulong (_doubleDelay releasing_button))
    && negb (_longClick releasing_button || _doubleClick b1).
Proof.
  apply (release_report releasing_button releasing_world [IsReleased; JustPressed]);
    vm_compute; reflexivity.
Defined.

(** ** Double clicks *)

Lemma call_keeps_stamp m b w :
  accepted b (button_after (call m b w)) && isReleased (button_after (call m b w)) = false ->
  _timeDouble (button_after (call m b w)) = _timeDouble b /\
  _doubleDelay (button_after (call m b w)) = _doubleDelay b.
Proof.
  destruct m; unfold_methods; destruct b; cbn;
    try (destruct (level w _ _), _now0, _state0, _longState0, _invert0; cbn);
    split_ifs; intros; split; congruence.
Qed.

Lemma run_keeps_stamp ms : forall b w,
  no_release ms b w = true ->
  _timeDouble (button_after (run ms b w)) = _timeDouble b /\
  _doubleDelay (button_after (run ms b w)) = _doubleDelay b.
Proof.
  induction ms as [|m ms IH]; intros b w Hn; [cbn; auto|].
  cbn [no_release] in Hn. apply andb_prop in Hn as [Hs Hn].
  apply negb_true_iff in Hs.
  destruct (call_keeps_stamp m b w Hs) as [H1 H2].
  change (button_after (run (m :: ms) b w))
    with (button_after (run ms (button_after (call m b w)) (world_after (call m b w)))).
  destruct (IH _ _ Hn) as [I1 I2]. split; congruence.
Qed.

(** X12.  A double click is a matter of two accepted releases.  Let [update()]
    accept a release, which it stamps with its third reading of the clock,
    and let no other release be accepted until a later [update()] accepts
    one (a press is accepted in between, and any accessor may be called).
    Then that [update()] sets [_doubleClick] exactly when its second reading
    of the clock is less than [_doubleDelay] past the stamp of the first
    release, and clears it otherwise. *)
Theorem double_click_between_releases b w ms :
  let x1 := update b w in
  let b1 := button_after x1 in
  let x2 := run ms b1 (world_after x1) in
  let b2 := button_after x2 in
  let w2 := world_after x2 in
  let b3 := button_after (update b2 w2) in
  accepted b b1 = true ->
  isReleased b1 = true ->
  no_release ms b1 (world_after x1) = true ->
  accepted b2 b3 = true ->
  isReleased b3 = true ->
  _doubleClick b3 =
    (ulong_sub (to_ulong (clock w2 (S (millis_calls w2))))
               (to_ulong (clock w (S (S (millis_calls w)))))
     <? to_ulong (_doubleDelay b)).
Proof.
  intros x1 b1 x2 b2 w2 b3 Ha1 Hr1 Hn Ha3 Hr3.
  destruct (update_release b w Ha1 Hr1) as (_ & Ht & _ & _ & Hdd).
  fold x1 b1 in Ht, Hdd.
  destruct (run_keeps_stamp ms b1 (world_after x1) Hn) as [Hs Hd].
  fold x2 b2 in Hs, Hd.
  destruct (update_release b2 w2 Ha3 Hr3) as (Hdc & _).
  fold b3 in Hdc. rewrite Hdc, Hs, Hd, Ht, Hdd. reflexivity.
Qed.

Lemma double_click_between_releases_witness :
  let x1 := update first_release_button first_release_world in
  let b1 := button_after x1 in
  let x2 := run [Update; IsPressed; Update; Update] b1 (world_after x1) in
  let b2 := button_after x2 in
  let w2 := world_after x2 in
  let b3 := button_after (update b2 w2) in
  _doubleClick b3 =
    (ulong_sub (to_ulong (clock w2 (S (millis_calls w2))))
               (to_ulong (clock first_release_world (S (S (millis_calls first_release_world)))))
     <? to_ulong (_doubleDelay first_release_button)).
Proof.
  apply (double_click_between_releases first_release_button first_release_world
           [Update; IsPressed; Update; Update]); vm_compute; reflexivity.
Defined.

(** * Further properties of the group *)

(** ** Adding *)

(** What a granted [add] leaves. *)
Lemma add_granted_entries sizeof_PushButton sizeof_pointer button g (l : list nat) :
  entries g = Some <$> l ->
  length l = Z.to_nat (buttonsSize g) ->
  0 <= buttonsSize g ->
  buttons g <> Freed ->
  (length l < cells_of sizeof_PushButton sizeof_pointer (buttonsSize g + 1))%nat ->
  exists g',
    PushButtonGroup_add sizeof_PushButton sizeof_pointer button true g = Some g' /\
    buttonsSize g' = buttonsSize g + 1 /\
    entries g' = Some <$> (l ++ [button]).
Proof.
  intros Hent Hlen Hsz Hfreed Hroom.
  set (m := cells_of sizeof_PushButton sizeof_pointer (buttonsSize g + 1)) in *.
  unfold PushButtonGroup_add, realloc. unfold entries in Hent.
  replace (buttonsSize g + 1 - 1) with (buttonsSize g) by lia.
  rewrite <- Hlen. fold m.
  destruct (buttons g) as [|cells|] eqn:Hb; [| |congruence]; cbn [mbind option_bind].
  - destruct l; [|discriminate Hent]. cbn [length] in *.
    rewrite decide_True by (rewrite length_replicate; lia).
    eexists. split; [reflexivity|]. split; [reflexivity|].
    unfold entries. cbn [buttons buttonsSize].
    replace (Z.to_nat (buttonsSize g + 1)) with 1%nat by lia.
    destruct m; [lia|]. reflexivity.
  - rewrite <- Hlen in Hent.
    assert (Hcl : (length l <= length cells)%nat).
    { apply (f_equal length) in Hent. rewrite length_take, length_fmap in Hent. lia. }
    rewrite decide_True by (rewrite length_resize; lia).
    eexists. split; [reflexivity|]. split; [reflexivity|].
    unfold entries. cbn [buttons buttonsSize].
    replace (Z.to_nat (buttonsSize g + 1)) with (S (length l)) by lia.
    rewrite (take_S_r _ _ (Some button))
      by (apply list_lookup_insert_eq; rewrite length_resize; lia).
    rewrite take_insert_ge by lia.
    rewrite take_resize_le by lia. rewrite resize_le by lia.
    rewrite Hent, fmap_app. reflexivity.
Qed.

(** X13.  A granted [add] appends: on a group whose entries are the pointers
    [l], when the block asked for has room for one more pointer, the count
    goes up by one and the entries are [l] followed by the new pointer. *)
Theorem add_granted_appends sizeof_PushButton sizeof_pointer button g (l : list nat) :
  entries g = Some <$> l ->
  length l = Z.to_nat (buttonsSize g) ->
  0 <= buttonsSize g ->
  buttons g <> Freed ->
  (length l < cells_of sizeof_PushButton sizeof_pointer (buttonsSize g + 1))%nat ->
  exists g',
    PushButtonGroup_add sizeof_PushButton sizeof_pointer button true g = Some g' /\
    buttonsSize g' = buttonsSize g + 1 /\
    entries g' = Some <$> (l ++ [button]).
Proof.
  apply add_granted_entries.
Qed.

Lemma add_granted_appends_witness :
  exists g',
    PushButtonGroup_add 19 2 3%nat true two_buttons = Some g' /\
    buttonsSize g' = buttonsSize two_buttons + 1 /\
    entries g' = Some <$> ([1%nat; 2%nat] ++ [3%nat]).
Proof.
  apply (add_granted_appends 19 2 3%nat two_buttons [1%nat; 2%nat]);
    vm_compute; try reflexivity; try discriminate. lia.
Defined.

Lemma cells_of_room sizeof_PushButton sizeof_pointer n :
  0 < sizeof_pointer -> sizeof_pointer <= sizeof_PushButton -> 0 <= n ->
  (Z.to_nat n < cells_of sizeof_PushButton sizeof_pointer (n + 1))%nat.
Proof.
  intros Hp Hs Hn. unfold cells_of.
  assert (n + 1 <= sizeof_PushButton * (n + 1) / sizeof_pointer).
  { apply Z.div_le_lower_bound; [lia|nia]. }
  lia.
Qed.

(** X14.  Buttons added one after the other to a new group are its entries, in
    the order of the calls, and the count is their number, provided a
    button object is at least as large as a pointer (so that the block
    asked for, counted in button objects, has room for the pointers). *)
Theorem add_all_entries sizeof_PushButton sizeof_pointer (l : list nat) :
  0 < sizeof_pointer ->
  sizeof_pointer <= sizeof_PushButton ->
  exists g,
    add_all sizeof_PushButton sizeof_pointer l = Some g /\
    buttonsSize g = Z.of_nat (length l) /\
    entries g = Some <$> l /\
    buttons g <> Freed.
Proof.
  intros Hp Hs. induction l as [|x l IH] using rev_ind.
  - exists PushButtonGroup_new. repeat split. discriminate.
  - destruct IH as (g & Hg & Hsz & Hent & Hfr).
    destruct (add_granted_entries sizeof_PushButton sizeof_pointer x g l)
      as (g' & Hadd & Hsz' & Hent'); try assumption; try lia.
    { replace (length l) with (Z.to_nat (buttonsSize g)) by lia.
      apply cells_of_room; lia. }
    exists g'. unfold add_all in *. rewrite foldl_app. cbn [foldl].
    rewrite Hg. cbn [mbind option_bind]. rewrite Hadd.
    split; [reflexivity|]. split; [rewrite length_app; cbn; lia|].
    split; [exact Hent'|].
    unfold PushButtonGroup_add, realloc in Hadd.
    destruct (buttons g); cbn in Hadd; [| |discriminate];
      destruct (decide _); try discriminate; injection Hadd as <-; discriminate.
Qed.

Lemma add_all_entries_witness :
  exists g,
    add_all 19 2 [4%nat; 5%nat; 4%nat] = Some g /\
    buttonsSize g = Z.of_nat (length [4%nat; 5%nat; 4%nat]) /\
    entries g = Some <$> [4%nat; 5%nat; 4%nat] /\
    buttons g <> Freed.
Proof. apply (add_all_entries 19 2 [4%nat; 5%nat; 4%nat]); lia. Defined.

(** ** Removing *)

Lemma remove_member_witness :
  exists g',
    PushButtonGroup_remove 19 2 1%nat InPlace two_buttons = Some g' /\
    buttonsSize g' = buttonsSize two_buttons - 1 /\
    entries g' = Some <$> filter (fun p => p <> 1%nat) [1%nat; 2%nat].
Proof.
  apply (remove_member 19 2 1%nat two_buttons [1%nat; 2%nat]).
  - vm_compute. reflexivity.
  - vm_compute. reflexivity.
  - cbn. lia.
  - vm_compute. lia.
  - compute_done.
  - compute_done.
Defined.

Lemma remove_absent_witness :
  exists g',
    PushButtonGroup_remove 19 2 3%nat InPlace two_buttons = Some g' /\
    buttonsSize g' = buttonsSize two_buttons - 1 /\
    entries g' = Some <$> take (length [1%nat; 2%nat] - 1) [1%nat; 2%nat].
Proof.
  apply (remove_absent 19 2 3%nat two_buttons [1%nat; 2%nat]).
  - vm_compute. reflexivity.
  - vm_compute. reflexivity.
  - cbn. lia.
  - vm_compute. lia.
  - compute_done.
Defined.

Lemma remove_moved_witness :
  PushButtonGroup_remove 19 2 1%nat Moved two_buttons = None.
Proof. apply (remove_moved 19 2 1%nat two_buttons). vm_compute. discriminate. Defined.

(** X17.  A refused [remove] takes the count down all the same.  On a group of
    two entries or more, when [realloc] returns [NULL], [remove] leaves
    [buttons] as it is and [buttonsSize] one less, whatever the pointer: the
    last entry is out of the group, and nothing is looked for. *)
Theorem remove_refused sizeof_PushButton sizeof_pointer button g (l : list nat) :
  entries g = Some <$> l ->
  length l = Z.to_nat (buttonsSize g) ->
  (2 <= length l)%nat ->
  exists g',
    PushButtonGroup_remove sizeof_PushButton sizeof_pointer button Refused g = Some g' /\
    buttons g' = buttons g /\
    buttonsSize g' = buttonsSize g - 1 /\
    entries g' = Some <$> take (length l - 1) l.
Proof.
  intros Hent Hlen H2.
  unfold entries in Hent. destruct (buttons g) as [|cells|] eqn:Hb;
    try (destruct l; [cbn in H2; lia|discriminate Hent]).
  unfold PushButtonGroup_remove, realloc. rewrite Hb.
  destruct (buttonsSize g - 1 =? 0) eqn:E; [apply Z.eqb_eq in E; lia|].
  cbn [mbind option_bind]. eexists. split; [reflexivity|].
  split; [reflexivity|]. split; [reflexivity|].
  unfold entries. cbn [buttons buttonsSize].
  replace (Z.to_nat (buttonsSize g - 1)) with (Init.Nat.min (length l - 1) (length l)) by lia.
  rewrite <- take_take, Hlen, Hent, fmap_take. reflexivity.
Qed.

Lemma remove_refused_witness :
  exists g',
    PushButtonGroup_remove 19 2 1%nat Refused two_buttons = Some g' /\
    buttons g' = buttons two_buttons /\
    buttonsSize g' = buttonsSize two_buttons - 1 /\
    entries g' = Some <$> take (length [1%nat; 2%nat] - 1) [1%nat; 2%nat].
Proof.
  apply (remove_refused 19 2 1%nat two_buttons [1%nat; 2%nat]).
  - vm_compute. reflexivity.
  - vm_compute. reflexivity.
  - cbn. lia.
Defined.

(** X18.  Adding one button to a new group and removing a button, the same or
    any other, whether [realloc] would grant or not, leaves the count 0, and
    [update()] then polls nothing and returns false.  But [buttons] is left
    pointing to the storage that [delete] released: a further [add], and
    the destructor, hand that pointer to [realloc] and to [free]. *)
Theorem add_remove_round_trip sizeof_PushButton sizeof_pointer p q :
  (0 < cells_of sizeof_PushButton sizeof_pointer 1)%nat ->
  exists g1,
    PushButtonGroup_add sizeof_PushButton sizeof_pointer p true PushButtonGroup_new = Some g1 /\
    buttonsSize g1 = 1 /\ entries g1 = [Some p] /\
    (forall outcome,
       PushButtonGroup_remove sizeof_PushButton sizeof_pointer q outcome g1 =
       Some (mkPushButtonGroup Freed 0)) /\
    (forall (h : heap) w,
       PushButtonGroup_update (mkPushButtonGroup Freed 0) h w = Some (false, h, w)) /\
    (forall r granted,
       PushButtonGroup_add sizeof_PushButton sizeof_pointer r granted
         (mkPushButtonGroup Freed 0) = None) /\
    PushButtonGroup_delete (mkPushButtonGroup Freed 0) = None.
Proof.
  intros Hroom.
  unfold PushButtonGroup_add, PushButtonGroup_new, realloc. cbn.
  change (0 + 1 - 1) with 0. change (0 + 1) with 1. change (Z.to_nat 0) with 0%nat.
  rewrite decide_True by (rewrite length_replicate; lia).
  eexists. split; [reflexivity|]. split; [reflexivity|]. split.
  - unfold entries. cbn.
    destruct (cells_of sizeof_PushButton sizeof_pointer 1); [lia|]. reflexivity.
  - repeat split; intros; reflexivity.
Qed.

Lemma add_remove_round_trip_witness :
  exists g1,
    PushButtonGroup_add 19 2 7%nat true PushButtonGroup_new = Some g1 /\
    buttonsSize g1 = 1 /\ entries g1 = [Some 7%nat] /\
    (forall outcome,
       PushButtonGroup_remove 19 2 8%nat outcome g1 = Some (mkPushButtonGroup Freed 0)) /\
    (forall (h : heap) w,
       PushButtonGroup_update (mkPushButtonGroup Freed 0) h w = Some (false, h, w)) /\
    (forall r granted,
       PushButtonGroup_add 19 2 r granted (mkPushButtonGroup Freed 0) = None) /\
    PushButtonGroup_delete (mkPushButtonGroup Freed 0) = None.
Proof. apply (add_remove_round_trip 19 2 7%nat 8%nat). vm_compute. lia. Defined.

(** ** Polling *)

Lemma group_update_poll_each g ps (h : heap) w :
  entries g = map Some ps ->
  length ps = Z.to_nat (buttonsSize g) ->
  PushButtonGroup_update g h w =
  (fun y => (existsb id (fst (fst y)), snd (fst y), snd y)) <$> poll_each ps h w.
Proof.
  intros Hent Hlen. unfold PushButtonGroup_update, entries in *.
  destruct (buttons g) as [|cells|].
  - destruct ps; [|discriminate Hent]. cbn in *.
    destruct (buttonsSize g <=? 0) eqn:E; [reflexivity|]. apply Z.leb_gt in E. lia.
  - rewrite <- Hlen. rewrite (update_loop_poll_each cells ps 0 false h w); [reflexivity|].
    intros k p Hk. cbn [Nat.add].
    assert (Hk' : (Some <$> ps) !! k = Some (Some p)).
    { rewrite list_lookup_fmap, Hk. reflexivity. }
    change (map Some ps) with (Some <$> ps) in Hent.
    rewrite <- Hent in Hk'. apply lookup_take_Some in Hk'. tauto.
  - destruct ps; [|discriminate Hent]. cbn in *.
    destruct (buttonsSize g <=? 0) eqn:E; [reflexivity|]. apply Z.leb_gt in E. lia.
Qed.

Lemma poll_each_frame ps : forall (h : heap) w rs h' w',
  poll_each ps h w = Some (rs, h', w') ->
  (forall q, q ∉ ps -> h' !! q = h !! q) /\
  (forall q, is_Some (h' !! q) <-> is_Some (h !! q)) /\
  (forall q, pin_of h' q = pin_of h q) /\
  pinMode_log w' = pinMode_log w.
Proof.
  induction ps as [|p ps IH]; intros h w rs h' w' Hpoll.
  - cbn in Hpoll. injection Hpoll as <- <- <-. repeat split; auto.
  - cbn [poll_each] in Hpoll.
    destruct (h !! p) as [b|] eqn:Hb; [|discriminate Hpoll]. cbn -[update] in Hpoll.
    destruct (poll_each ps _ _) as [[[rs0 h0] w0]|] eqn:Hrec; [|discriminate Hpoll].
    cbn -[update] in Hpoll. injection Hpoll as <- <- <-.
    destruct (IH _ _ _ _ _ Hrec) as (I1 & I2 & I3 & I4).
    destruct (update_pin_log b w) as [Hpin _].
    destruct (call_keeps Update b w) as [_ Hpm].
    cbn [call] in Hpm. repeat split.
    + intros q Hq. apply not_elem_of_cons in Hq as [Hne Hq].
      rewrite (I1 q Hq). apply lookup_insert_ne. congruence.
    + rewrite I2. destruct (decide (p = q)) as [->|Hne].
      * rewrite lookup_insert_eq, Hb. eauto.
      * rewrite lookup_insert_ne by exact Hne. auto.
    + rewrite I2. destruct (decide (p = q)) as [->|Hne].
      * rewrite lookup_insert_eq, Hb. eauto.
      * rewrite lookup_insert_ne by exact Hne. auto.
    + intros q. rewrite I3. apply (pin_of_insert h p b _ q Hb Hpin).
    + rewrite I4. exact Hpm.
Qed.

(** X19.  The group's [update()] touches the buttons of the group and nothing
    else: a button that is in no entry is left as it was, no button comes
    to be or ceases to be, no button changes pin, and [pinMode()] is not
    called. *)
Theorem group_update_frame g ps (h : heap) w :
  entries g = map Some ps ->
  length ps = Z.to_nat (buttonsSize g) ->
  match PushButtonGroup_update g h w with
  | Some (_, h', w') =>
      (forall q, q ∉ ps -> h' !! q = h !! q) /\
      (forall q, is_Some (h' !! q) <-> is_Some (h !! q)) /\
      (forall q, pin_of h' q = pin_of h q) /\
      pinMode_log w' = pinMode_log w
  | None => True
  end.
Proof.
  intros Hent Hlen. rewrite (group_update_poll_each g ps h w Hent Hlen).
  destruct (poll_each ps h w) as [[[rs h'] w']|] eqn:Hpoll; [|exact I].
  cbn. apply (poll_each_frame ps h w rs h' w' Hpoll).
Qed.

Lemma group_update_frame_witness :
  match PushButtonGroup_update two_buttons
          (<[9%nat := double_latched]> two_buttons_heap) press_world with
  | Some (_, h', w') =>
      (forall q, q ∉ [1%nat; 2%nat] ->
         h' !! q = (<[9%nat := double_latched]> two_buttons_heap) !! q) /\
      (forall q, is_Some (h' !! q) <->
         is_Some ((<[9%nat := double_latched]> two_buttons_heap) !! q)) /\
      (forall q, pin_of h' q = pin_of (<[9%nat := double_latched]> two_buttons_heap) q) /\
      pinMode_log w' = pinMode_log press_world
  | None => True
  end.
Proof.
  apply (group_update_frame two_buttons [1%nat; 2%nat]
           (<[9%nat := double_latched]> two_buttons_heap) press_world);
    vm_compute; reflexivity.
Defined.
